(** * StocksToNote watchlist generator: a shallow embedding and its properties

    The development follows [Watchlist/watchlist_generator.py].

    Modelling conventions.
    - A numpy [float64] is an extended rational: a finite value, one of the
      two infinities, or NaN.  Finite arithmetic is exact (binary rounding
      is idealised; results are kept in lowest terms); the special values
      follow IEEE-754 as numpy applies it: a division by zero gives an
      infinity or NaN together with a warning, never a Python exception.
      Zero is unsigned.
    - [np.log] and [np.sqrt] on finite positive arguments are kept abstract
      (class [Libm]); their behaviour on zero, negative numbers, the
      infinities and NaN is written out.
    - Python exceptions are values of [exn]; fallible pure code lives in
      [res], effectful code in the monad [M], which threads the
      [Watchlist] object and accumulates what the code prints, logs and
      requests.
    - A pandas DataFrame with a default RangeIndex is a list of rows;
      [series[k]] is a label lookup that raises [KeyError] when the label
      is absent, [series[0:49]] is a positional slice.
    - asyncio: every task suspends exactly once, on the history request.
      What follows the suspension runs without interruption on the event
      loop, so a batch is the list of task continuations taken in the
      order their requests complete; that order is the scheduler's. *)

From Stdlib Require Import ZArith QArith Qround Qabs Qreduction Qpower Lqa.
From Stdlib Require Import List String Bool Lia Permutation Sorted.
Import ListNotations.

Local Open Scope Z_scope.
Local Open Scope string_scope.
Local Open Scope list_scope.

(** ** Python exceptions and fallible results *)

Inductive exn : Type :=
| KeyError
| IndexError
| TypeError
| ValueError
| OverflowError
| RequestException.

Inductive res (A : Type) : Type :=
| Ok (a : A)
| Raise (e : exn).

Arguments Ok {A} a.
Arguments Raise {A} e.

Definition res_bind {A B : Type} (r : res A) (k : A -> res B) : res B :=
  match r with
  | Ok a => k a
  | Raise e => Raise e
  end.

Declare Scope res_scope.
Delimit Scope res_scope with res.
Notation "x <- r ;; k" := (res_bind r (fun x => k))
  (at level 61, r at next level, right associativity) : res_scope.

Fixpoint res_map {A B : Type} (f : A -> res B) (l : list A) : res (list B) :=
  match l with
  | [] => Ok []
  | a :: l' =>
      (b <- f a ;;
       bs <- res_map f l' ;;
       Ok (b :: bs))%res
  end.

(** ** numpy float64 *)

Module NP.

Inductive float64 : Type :=
| Fin (q : Q)
| PosInf
| NegInf
| NaN.

Definition fin (q : Q) : float64 := Fin (Qred q).

Definition of_int (z : Z) : float64 := Fin (inject_Z z).

Definition is_nan (x : float64) : bool :=
  match x with
  | NaN => true
  | _ => false
  end.

Definition opp (x : float64) : float64 :=
  match x with
  | Fin q => fin (- q)
  | PosInf => NegInf
  | NegInf => PosInf
  | NaN => NaN
  end.

Definition add (x y : float64) : float64 :=
  match x, y with
  | NaN, _ | _, NaN => NaN
  | Fin a, Fin b => fin (a + b)
  | PosInf, NegInf | NegInf, PosInf => NaN
  | PosInf, _ | _, PosInf => PosInf
  | NegInf, _ | _, NegInf => NegInf
  end.

Definition sub (x y : float64) : float64 := add x (opp y).

(** The infinity carrying the sign of [c] ([Eq] stands for a zero factor). *)
Definition signed_inf (c : comparison) : float64 :=
  match c with
  | Gt => PosInf
  | Lt => NegInf
  | Eq => NaN
  end.

Definition flip (c : comparison) : comparison := CompOpp c.

Definition mul (x y : float64) : float64 :=
  match x, y with
  | NaN, _ | _, NaN => NaN
  | Fin a, Fin b => fin (a * b)
  | PosInf, Fin b | Fin b, PosInf => signed_inf (b ?= 0)%Q
  | NegInf, Fin b | Fin b, NegInf => signed_inf (flip (b ?= 0)%Q)
  | PosInf, PosInf | NegInf, NegInf => PosInf
  | PosInf, NegInf | NegInf, PosInf => NegInf
  end.

(** numpy division: [x / 0] is an infinity of the sign of [x], [0 / 0] is
    NaN; both only warn. *)
Definition div (x y : float64) : float64 :=
  match x, y with
  | NaN, _ | _, NaN => NaN
  | Fin a, Fin b =>
      if Qeq_bool b 0 then signed_inf (a ?= 0)%Q else fin (a / b)
  | Fin _, PosInf | Fin _, NegInf => Fin 0
  | PosInf, Fin b => if Qle_bool 0 b then PosInf else NegInf
  | NegInf, Fin b => if Qle_bool 0 b then NegInf else PosInf
  | PosInf, _ | NegInf, _ => NaN
  end.

Definition abs (x : float64) : float64 :=
  match x with
  | Fin q => fin (Qabs q)
  | PosInf | NegInf => PosInf
  | NaN => NaN
  end.

(** Comparisons: every comparison with NaN is false. *)
Definition ltb (x y : float64) : bool :=
  match x, y with
  | NaN, _ | _, NaN => false
  | Fin a, Fin b => negb (Qle_bool b a)
  | NegInf, NegInf | PosInf, _ => false
  | NegInf, _ => true
  | Fin _, PosInf => true
  | Fin _, NegInf => false
  end.

Definition leb (x y : float64) : bool :=
  match x, y with
  | NaN, _ | _, NaN => false
  | Fin a, Fin b => Qle_bool a b
  | NegInf, _ => true
  | _, PosInf => true
  | PosInf, _ => false
  | Fin _, NegInf => false
  end.

Definition gtb (x y : float64) : bool := ltb y x.
Definition geb (x y : float64) : bool := leb y x.

(** Round half to even, the rounding of Python's [round] and of
    [numpy.round]. *)
Definition round_half_even (q : Q) : Z :=
  let f := Qfloor q in
  match (q - inject_Z f ?= 1 # 2)%Q with
  | Lt => f
  | Gt => f + 1
  | Eq => if Z.even f then f else f + 1
  end.

(** [round(x)] on a float64 returns a Python int; it raises on the values
    that have no integer. *)
Definition py_round (x : float64) : res Z :=
  match x with
  | Fin q => Ok (round_half_even q)
  | PosInf | NegInf => Raise OverflowError
  | NaN => Raise ValueError
  end.

(** [round(x, 2)] stays a float64 and never raises. *)
Definition py_round2 (x : float64) : float64 :=
  match x with
  | Fin q => fin (inject_Z (round_half_even (q * 100)) / 100)
  | _ => x
  end.

Definition sum (l : list float64) : float64 := fold_left add l (Fin 0).

(** [np.mean] of a Python list: NaN propagates, and the empty list gives
    NaN (0/0) with a warning. *)
Definition mean (l : list float64) : float64 :=
  div (sum l) (of_int (Z.of_nat (List.length l))).

(** Transcendental functions on finite positive arguments. *)
Class Libm : Type := {
  ln_fin : Q -> Q;
  sqrt_fin : Q -> Q
}.

Definition log `{Libm} (x : float64) : float64 :=
  match x with
  | Fin q =>
      match (q ?= 0)%Q with
      | Gt => fin (ln_fin q)
      | Eq => NegInf
      | Lt => NaN
      end
  | PosInf => PosInf
  | NegInf | NaN => NaN
  end.

Definition sqrt `{Libm} (x : float64) : float64 :=
  match x with
  | Fin q =>
      match (q ?= 0)%Q with
      | Gt => fin (sqrt_fin q)
      | Eq => Fin 0
      | Lt => NaN
      end
  | PosInf => PosInf
  | NegInf | NaN => NaN
  end.

End NP.

Import NP.

(** ** pandas Series reductions (NaN entries are skipped) *)

Module PD.

Definition dropna (s : list float64) : list float64 :=
  filter (fun x => negb (is_nan x)) s.

Definition mean (s : list float64) : float64 :=
  let xs := dropna s in
  NP.div (NP.sum xs) (of_int (Z.of_nat (List.length xs))).

Fixpoint insert (x : float64) (l : list float64) : list float64 :=
  match l with
  | [] => [x]
  | y :: l' => if NP.leb x y then x :: l else y :: insert x l'
  end.

Definition sort (l : list float64) : list float64 := fold_right insert [] l.

Definition median (s : list float64) : float64 :=
  let xs := sort (dropna s) in
  let n := List.length xs in
  if Nat.eqb n 0 then NaN
  else if Nat.odd n then nth (Nat.div n 2) xs NaN
  else NP.div (NP.add (nth (Nat.div n 2 - 1) xs NaN) (nth (Nat.div n 2) xs NaN))
              (Fin 2).

(** An int64 column read as floats, as [mean] and [median] do. *)
Definition astype_float (s : list Z) : list float64 := map of_int s.

(** [series[k]] on a default index. *)
Definition getitem {A : Type} (s : list A) (k : nat) : res A :=
  match nth_error s k with
  | Some v => Ok v
  | None => Raise KeyError
  end.

(** [array.values[0]]. *)
Definition values0 {A : Type} (s : list A) : res A :=
  match s with
  | v :: _ => Ok v
  | [] => Raise IndexError
  end.

(** [series.max()] of an int64 column; an empty column has no maximum
    (pandas answers NaN, equal to no entry). *)
Definition max (s : list Z) : option Z :=
  match s with
  | [] => None
  | v :: s' => Some (fold_left Z.max s' v)
  end.

End PD.

(** ** Dynamically typed values *)

Inductive pyval : Type :=
| PyFloat (x : float64)
| PyInt (z : Z)
| PyStr (s : string).

Definition to_float (v : pyval) : res float64 :=
  match v with
  | PyFloat x => Ok x
  | PyInt z => Ok (of_int z)
  | PyStr _ => Raise TypeError
  end.

(** [v - x] *)
Definition py_sub (v : pyval) (x : float64) : res float64 :=
  (a <- to_float v ;; Ok (NP.sub a x))%res.

(** [v > n] *)
Definition py_gt (v : pyval) (n : Z) : res bool :=
  (a <- to_float v ;; Ok (NP.gtb a (of_int n)))%res.

(** ** Market data *)

(** A pandas Timestamp: the calendar day (as an ordinal) and the UTC offset
    in minutes when the stamp is timezone-aware. *)
Record Timestamp : Type := {
  ts_day : Z;
  ts_tz : option Z
}.

Record Bar : Type := {
  Date : Timestamp;
  Open : float64;
  High : float64;
  Low : float64;
  Close : float64;
  Volume : Z
}.

Definition DataFrame : Type := list Bar.

Record MinuteBar : Type := {
  mOpen : float64;
  mClose : float64;
  mVolume : Z
}.

(** ** What the program prints, logs and requests *)

Inductive level : Type := INFO | WARNING | ERROR | CRITICAL.

Inductive request : Type :=
| MarketCapPage
| ShortFloatPage
| SectorPage
| PricePage
| MinuteBars (start_day end_day : Z).

Record Row : Type := {
  row_stock : string;
  row_date : Timestamp;
  row_sector : string;
  row_mc : string;
  row_equity_vol : Z;
  row_gap : float64;
  row_vol_ratio : float64;
  row_sf : string;
  row_vol : pyval;
  row_evidence : string
}.

(** Effects of one evaluation. *)
Inductive action : Type :=
| AHistory (period : nat)
| ARequest (r : request)
| ALog (lvl : level) (origin : string)
| APrint (r : Row)
| AReturn
| ARaise (e : exn).

(** Effects of a run. *)
Inductive event : Type :=
| EHeader
| EBanner (i : nat)
| ETask (i : nat) (stock : string) (a : action)
| ESummary (stocks_in_play : Z) (n_sizzlers : nat).

(** ** The outside world: the symbol universe and the providers' answers *)

Record World : Type := {
  stocks : list string;
  history : string -> nat -> res DataFrame;
  market_cap_page : string -> res string;
  short_float_page : string -> res string;
  sector_page : string -> res (string * string);
  price_page : string -> res float64;
  download : string -> Z -> Z -> res (list MinuteBar)
}.

(** ** The Watchlist object and the effect monad *)

Record Watchlist : Type := {
  stocks_in_play : Z;
  sizzlers : list string
}.

Definition M (E A : Type) : Type := Watchlist -> res A * Watchlist * list E.

Definition ret {E A : Type} (a : A) : M E A :=
  fun self => (Ok a, self, []).

Definition bind {E A B : Type} (m : M E A) (k : A -> M E B) : M E B :=
  fun self =>
    match m self with
    | (Ok a, self', t) =>
        let '(r, self'', t') := k a self' in (r, self'', t ++ t')
    | (Raise e, self', t) => (Raise e, self', t)
    end.

Definition lift {E A : Type} (r : res A) : M E A :=
  fun self => (r, self, []).

Definition emit {E : Type} (es : list E) : M E unit :=
  fun self => (Ok tt, self, es).

Definition io {E A : Type} (c : A * list E) : M E A :=
  fun self => (Ok (fst c), self, snd c).

Definition get_self {E : Type} : M E Watchlist :=
  fun self => (Ok self, self, []).

Definition set_self {E : Type} (w : Watchlist) : M E unit :=
  fun _ => (Ok tt, w, []).

Definition try_except {E A : Type} (body : M E A) (handler : exn -> M E A)
  : M E A :=
  fun self =>
    match body self with
    | (Raise e, self', t) =>
        let '(r, self'', t') := handler e self' in (r, self'', t ++ t')
    | done => done
    end.

Declare Scope m_scope.
Delimit Scope m_scope with M.
Notation "x <- m ;; k" := (bind m (fun x => k))
  (at level 61, m at next level, right associativity) : m_scope.
Notation "m ;; k" := (bind m (fun _ => k))
  (at level 61, right associativity) : m_scope.

(** ** class DataCollector *)

Module DataCollector.

Section Collector.

Context {libm : Libm}.
Variable W : World.

(** A value together with the requests and log entries made on the way. *)
Definition IO (A : Type) : Type := (A * list action)%type.

Definition get_market_cap (stock : string) : IO string :=
  match market_cap_page W stock with
  | Ok mc => (mc, [ARequest MarketCapPage])
  | Raise _ => ("No data", [ARequest MarketCapPage; ALog ERROR "get_market_cap"])
  end.

Definition get_short_float (stock : string) : IO string :=
  match short_float_page W stock with
  | Ok sf => (sf, [ARequest ShortFloatPage])
  | Raise _ => ("No data", [ARequest ShortFloatPage; ALog ERROR "get_short_float"])
  end.

Definition get_sector (stock : string) : IO string :=
  match sector_page W stock with
  | Ok (industry, sector) =>
      (if Nat.leb (String.length industry) (String.length sector)
       then industry else sector,
       [ARequest SectorPage])
  | Raise _ => ("N/A", [ARequest SectorPage; ALog ERROR "get_sector"])
  end.

Definition get_current_price (stock : string) : IO pyval :=
  match price_page W stock with
  | Ok cp => (PyFloat cp, [ARequest PricePage; ALog INFO "get_current_price"])
  | Raise _ => (PyInt 999, [ARequest PricePage; ALog CRITICAL "get_current_price"])
  end.

(** [datetime.strptime(str(start_date), "%Y-%m-%d %H:%M:%S%z")] followed by
    the reformatting to a plain day: the pattern demands a UTC offset. *)
Definition strptime_day (start_date : Timestamp) : res Z :=
  match ts_tz start_date with
  | Some _ => Ok (ts_day start_date)
  | None => Raise ValueError
  end.

(** [df[1:-1]] *)
Definition trim {A : Type} (df : list A) : list A := removelast (tl df).

(** Lines 85-90, on the downloaded minute bars. *)
Definition selling_verdict (df : list MinuteBar) : res string :=
  let df := trim df in
  let peak := PD.max (map mVolume df) in
  let highest_volume_row :=
    filter (fun r => match peak with
                     | Some m => Z.eqb (mVolume r) m
                     | None => false
                     end) df in
  (o <- PD.values0 (map mOpen highest_volume_row) ;;
   c <- PD.values0 (map mClose highest_volume_row) ;;
   Ok (if NP.geb o c then "Yes" else "No"))%res.

Definition get_evidence_of_selling (start_date : Timestamp) (stock : string)
  : IO string :=
  let attempt : res string * list action :=
    match strptime_day start_date with
    | Raise e => (Raise e, [])
    | Ok day =>
        let end_day := day + 1 in
        (res_bind (download W stock day end_day) selling_verdict,
         [ARequest (MinuteBars day end_day)])
    end in
  match attempt with
  | (Ok evidence_of_selling, acts) => (evidence_of_selling, acts)
  | (Raise _, acts) => ("No data", acts ++ [ALog ERROR "get_evidence_of_selling"])
  end.

(** Lines 97-103, on a Series of closing prices. *)
Definition volatility (closing_prices : list float64) : res float64 :=
  (log_returns <-
     res_map (fun i =>
                p <- PD.getitem closing_prices i ;;
                p' <- PD.getitem closing_prices (i - 1) ;;
                Ok (NP.log (NP.div p p')))
             (seq 1 (List.length closing_prices - 1)) ;;
   let avg_return := NP.mean log_returns in
   let squared_deviations :=
     map (fun log_return =>
            let d := NP.sub log_return avg_return in NP.mul d d)
         log_returns in
   let variance := NP.mean squared_deviations in
   let historical_volatility := NP.sqrt variance in
   Ok (NP.py_round2
         (NP.mul (NP.mul historical_volatility (NP.sqrt (of_int 252)))
                 (of_int 100))))%res.

Definition calculate_volatility (closing_prices : list float64) (stock : string)
  : IO pyval :=
  match volatility closing_prices with
  | Ok vol => (PyFloat vol, [])
  | Raise _ => (PyStr "No data", [ALog ERROR "calculate_volatility"])
  end.

End Collector.

End DataCollector.

(** ** class Watchlist *)

Module WatchlistGen.

Import DataCollector.

(** The values computed on lines 137-141. *)
Record Signals : Type := {
  gap : float64;
  green_initial_day : bool;
  avg_vol : float64;
  equity_vol : float64;
  vol_ratio : float64
}.

Definition column {A : Type} (f : Bar -> A) (stock_data : DataFrame) : list A :=
  map f stock_data.

Definition signals (stock_data : DataFrame) : res Signals :=
  (open49 <- PD.getitem (column Open stock_data) 49 ;;
   high48 <- PD.getitem (column High stock_data) 48 ;;
   let gap := NP.mul (NP.div (NP.sub open49 high48) high48) (of_int 100) in
   close49 <- PD.getitem (column Close stock_data) 49 ;;
   let green_initial_day := NP.gtb close49 open49 in
   let avg_vol :=
     PD.mean (PD.astype_float (firstn 49 (column Volume stock_data))) in
   let equity_vol :=
     NP.mul (PD.mean (firstn 49 (column Close stock_data)))
            (PD.median (PD.astype_float (firstn 49 (column Volume stock_data)))) in
   volume49 <- PD.getitem (column Volume stock_data) 49 ;;
   let vol_ratio := NP.div (of_int volume49) avg_vol in
   Ok {| gap := gap; green_initial_day := green_initial_day;
         avg_vol := avg_vol; equity_vol := equity_vol;
         vol_ratio := vol_ratio |})%res.

(** The condition of line 143; [and] evaluates left to right and stops at
    the first false operand. *)
Definition passes_screen (s : Signals) : res bool :=
  if green_initial_day s then
    (g <- NP.py_round (gap s) ;;
     if Z.geb g 2 then
       if NP.geb (equity_vol s) (of_int 250000) then
         (r <- NP.py_round (vol_ratio s) ;; Ok (Z.gtb r 3))
       else Ok false
     else Ok false)%res
  else Ok false.

Definition mem (stock : string) (l : list string) : bool :=
  existsb (String.eqb stock) l.

Section Run.

Context {libm : Libm}.
Variable W : World.

Definition closest_number (close : pyval) (high low : float64) (stock : string)
  : IO bool :=
  match (dist1 <- res_bind (py_sub close high) (fun d => Ok (NP.abs d)) ;;
         dist2 <- res_bind (py_sub close low) (fun d => Ok (NP.abs d)) ;;
         Ok (if NP.ltb dist1 dist2 then true else false))%res with
  | Ok b => (b, [])
  | Raise _ => (true, [ALog CRITICAL "closest_number"])
  end.

(** Lines 144-158: the branch taken when the screen passes. *)
Definition enrich (stock : string) (stock_data : DataFrame) (s : Signals)
  : M action unit :=
  (date <- lift (PD.getitem (column Date stock_data) 49) ;;
   mc <- io (get_market_cap W stock) ;;
   sf <- io (get_short_float W stock) ;;
   sector <- io (get_sector W stock) ;;
   current_price <- io (get_current_price W stock) ;;
   evidence_of_selling <- io (get_evidence_of_selling W date stock) ;;
   vol <- io (calculate_volatility (firstn 49 (column Close stock_data)) stock) ;;
   high49 <- lift (PD.getitem (column High stock_data) 49) ;;
   low49 <- lift (PD.getitem (column Low stock_data) 49) ;;
   momentum <- io (closest_number current_price high49 low49 stock) ;;
   if momentum && String.eqb evidence_of_selling "No" then
     shown_equity_vol <- lift (NP.py_round (equity_vol s)) ;;
     emit [APrint {| row_stock := stock; row_date := date;
                     row_sector := sector; row_mc := mc;
                     row_equity_vol := shown_equity_vol;
                     row_gap := NP.py_round2 (gap s);
                     row_vol_ratio := NP.py_round2 (vol_ratio s);
                     row_sf := sf; row_vol := vol;
                     row_evidence := evidence_of_selling |}] ;;
     self <- get_self ;;
     set_self {| stocks_in_play := stocks_in_play self + 1;
                 sizzlers := sizzlers self |} ;;
     hot <- lift (py_gt vol 100) ;;
     self <- get_self ;;
     if hot && negb (mem stock (sizzlers self)) then
       set_self {| stocks_in_play := stocks_in_play self;
                   sizzlers := sizzlers self ++ [stock] |}
     else ret tt
   else ret tt)%M.

(** [get_stock_data] from the point where the awaited history request has
    completed with [fetched]; the request itself is the task's first
    action and is issued when the task starts. *)
Definition get_stock_data (stock : string) (i : nat) (fetched : res DataFrame)
  : M action unit :=
  try_except
    (stock_data <- lift fetched ;;
     (if Nat.ltb (List.length stock_data) 50
      then emit [ALog WARNING "get_stock_data"] else ret tt) ;;
     s <- lift (signals stock_data) ;;
     pass <- lift (passes_screen s) ;;
     if pass then enrich stock stock_data s else ret tt)%M
    (fun e =>
       match e with
       | KeyError => emit [ALog WARNING "get_stock_data"]
       | IndexError => emit [ALog WARNING "get_stock_data"]
       | _ => lift (Raise e)
       end).

(** *** The event loop *)

(** The order in which the pending requests complete and how many other
    continuations still run between a task's failure and the moment the
    awaiting coroutine is resumed with its exception. *)
Record Scheduler : Type := {
  picks : nat -> list nat;
  lag : nat -> nat
}.

Fixpoint remove_nth {A : Type} (k : nat) (l : list A) : list A :=
  match l, k with
  | [], _ => []
  | _ :: l', O => l'
  | a :: l', S k' => a :: remove_nth k' l'
  end.

Fixpoint completion_order {A : Type} (fuel : nat) (choice : list nat)
  (pending : list A) : list A :=
  match fuel with
  | O => []
  | S fuel' =>
      let k := Nat.modulo (hd O choice) (List.length pending) in
      match nth_error pending k with
      | Some t => t :: completion_order fuel' (tl choice) (remove_nth k pending)
      | None => []
      end
  end.

(** One task continuation, its effects tagged with the task and closed by
    how the task resolved. *)
Definition run_task (i : nat) (stock : string) : M event unit :=
  fun self =>
    let '(r, self', acts) := get_stock_data stock i (history W stock i) self in
    (r, self',
     map (ETask i stock) acts ++
     [ETask i stock match r with Ok _ => AReturn | Raise e => ARaise e end]).

(** Continuations that still run after a failure; their own exceptions are
    never retrieved. *)
Fixpoint stragglers (i : nat) (order : list string) (self : Watchlist)
  : Watchlist * list event :=
  match order with
  | [] => (self, [])
  | stock :: rest =>
      let '(_, self', t) := run_task i stock self in
      let '(self'', t') := stragglers i rest self' in
      (self'', t ++ t')
  end.

(** Awaiting [asyncio.gather] on the tasks of a batch: it resumes when every task has returned,
    or with the first exception a task raises. *)
Fixpoint gather (i : nat) (order : list string) (late : nat) : M event unit :=
  match order with
  | [] => ret tt
  | stock :: rest =>
      fun self =>
        match run_task i stock self with
        | (Ok _, self', t) =>
            let '(r, self'', t') := gather i rest late self' in
            (r, self'', t ++ t')
        | (Raise e, self', t) =>
            let '(self'', t') := stragglers i (firstn late rest) self' in
            (Raise e, self'', t ++ t')
        end
  end.

(** One pass of the loop body of [main]. *)
Definition batch (sch : Scheduler) (i : nat) : M event unit :=
  (emit [EBanner i] ;;
   emit (map (fun stock => ETask i stock (AHistory i)) (stocks W)) ;;
   gather i (completion_order (List.length (stocks W)) (picks sch i) (stocks W))
          (lag sch i))%M.

Fixpoint for_each (sch : Scheduler) (windows : list nat) : M event unit :=
  match windows with
  | [] => ret tt
  | i :: rest => (batch sch i ;; for_each sch rest)%M
  end.

Definition main (sch : Scheduler) : M event unit :=
  (emit [EHeader] ;;
   for_each sch (seq 50 10) ;;
   self <- get_self ;;
   emit [ESummary (stocks_in_play self) (List.length (sizzlers self))])%M.

(** [Watchlist()] followed by [asyncio.run(my_watchlist.main())]. *)
Definition run (sch : Scheduler) : res unit * Watchlist * list event :=
  main sch {| stocks_in_play := 0; sizzlers := [] |}.

End Run.

End WatchlistGen.

(** ** Concrete scenarios *)

Module Scenario.

Import DataCollector WatchlistGen.

(** A fixed-precision [Libm]: the square root to twelve decimals through the
    integer square root, the logarithm through thirty terms of the series
    of [2 * atanh ((q - 1) / (q + 1))], cut to twelve decimals. *)
Definition decimals12 (q : Q) : Q :=
  Qmake (Qfloor (q * inject_Z (10 ^ 12))) (Pos.pow 10 12).

Definition sqrt12 (q : Q) : Q :=
  Qmake (Z.sqrt (Qfloor (q * inject_Z (10 ^ 24)))) (Pos.pow 10 12).

Fixpoint atanh_series (terms : nat) (k : Z) (zpow z2 : Q) : Q :=
  match terms with
  | O => 0
  | S terms' =>
      (zpow / inject_Z (2 * k + 1)
       + atanh_series terms' (k + 1) (decimals12 (zpow * z2)) z2)%Q
  end.

Definition ln12 (q : Q) : Q :=
  let z := Qred ((q - 1) / (q + 1)) in
  decimals12 (2 * atanh_series 30 0 z (Qred (z * z))).

Definition libm12 : Libm := {| ln_fin := ln12; sqrt_fin := sqrt12 |}.

Definition day (d : Z) : Timestamp := {| ts_day := d; ts_tz := Some (-240) |}.

Definition bar (d : Z) (o h l c : Q) (v : Z) : Bar :=
  {| Date := day d; Open := Fin o; High := Fin h; Low := Fin l;
     Close := Fin c; Volume := v |}.

(** Forty-nine quiet sessions: price 10, volume 100000. *)
Definition quiet : DataFrame := repeat (bar 0 10 10 10 10 100000) 49.

(** A 2 % gap up on a green day. *)
Definition breakout (v : Z) : Bar := bar 49 (102 # 10) 12 10 11 v.

(** Volume ratio 4: the screen passes. *)
Definition bars_pass : DataFrame := quiet ++ [breakout 400000].

(** Volume ratio 3.4, which rounds to 3. *)
Definition bars_ratio3 : DataFrame := quiet ++ [breakout 340000].

(** A 51-bar window: the breakout is the bar before the last one. *)
Definition bars51 : DataFrame :=
  bars_pass ++ [bar 50 5 6 4 (45 # 10) 100000].

(** The breakout after a session the provider has no prices for: a row of
    NaN with volume 0. *)
Definition bars_missing_session : DataFrame :=
  repeat (bar 0 10 10 10 10 100000) 48 ++
  [{| Date := day 48; Open := NaN; High := NaN; Low := NaN; Close := NaN;
      Volume := 0 |};
   breakout 400000].

(** The breakout after a session whose high is recorded as zero. *)
Definition bars_zero_high : DataFrame :=
  repeat (bar 0 10 10 10 10 100000) 48 ++
  [bar 48 10 0 10 10 100000; breakout 400000].

(** No trading at all before the breakout. *)
Definition bars_no_volume : DataFrame :=
  repeat (bar 0 10 10 10 10 0) 49 ++ [breakout 5].

(** Signed volumes with mean zero and a positive median. *)
Definition bars_signed_volume : DataFrame :=
  repeat (bar 0 10 10 10 10 100000) 25 ++
  repeat (bar 0 10 10 10 10 (-100000)) 23 ++
  [bar 48 10 10 10 10 (-200000); breakout 5].

(** A close at twice the usual price two sessions before the breakout. *)
Definition bars_hot : DataFrame :=
  repeat (bar 0 10 10 10 10 100000) 46 ++
  [bar 46 10 20 10 20 100000; bar 47 20 20 10 10 100000;
   bar 48 10 10 10 10 100000; breakout 400000].

Definition minute (o c : Q) (v : Z) : MinuteBar :=
  {| mOpen := Fin o; mClose := Fin c; mVolume := v |}.

(** Five minute bars; after trimming, the second of two equal peaks is a
    falling candle and the first a rising one. *)
Definition minutes_up : list MinuteBar :=
  [minute 10 9 900; minute 10 11 500; minute 11 12 700; minute 12 11 700;
   minute 12 11 800].


(** A world in which symbol [stock] has the history [bars stock]; the quote
    pages answer, the price page gives [price]. *)
Definition world (symbols : list string) (bars : string -> DataFrame)
  (price : res float64) (minutes : list MinuteBar) : World :=
  {| stocks := symbols;
     history := fun stock _ => Ok (bars stock);
     market_cap_page := fun _ => Ok "$1.2B";
     short_float_page := fun _ => Ok "3.1%";
     sector_page := fun _ => Ok ("Software", "Technology");
     price_page := fun _ => price;
     download := fun _ _ _ => Ok minutes |}.

(** Requests complete in the order they were issued. *)
Definition fifo : Scheduler := {| picks := fun _ => []; lag := fun _ => O |}.

(** "AAA" has a missing session before its breakout, every other symbol a
    clean breakout. *)
Definition bars_of (stock : string) : DataFrame :=
  if String.eqb stock "AAA" then bars_missing_session else bars_pass.

Definition one_symbol : World :=
  world ["AAA"] (fun _ => bars_ratio3) (Ok (Fin 12)) minutes_up.

(** One symbol that breaks out after a price spike, in every window. *)
Definition hot_world : World :=
  world ["AAA"] (fun _ => bars_hot) (Ok (Fin 12)) minutes_up.

Definition hot_row : Row :=
  {| row_stock := "AAA"; row_date := day 49; row_sector := "Software";
     row_mc := "$1.2B"; row_equity_vol := 1020408; row_gap := Fin 2;
     row_vol_ratio := Fin 4; row_sf := "3.1%";
     row_vol := PyFloat (Fin (22461 # 100)); row_evidence := "No" |}.

(** Two symbols; the first one has the missing session. *)
Definition faulty_world : World :=
  world ["AAA"; "BBB"] bars_of (Ok (Fin 12)) minutes_up.

Definition fresh : Watchlist := {| stocks_in_play := 0; sizzlers := [] |}.

End Scenario.

(** ** The specification's reading of "today" *)

Module SpecReading.

(** The last element of the series and the one before it. *)
Definition spec_today (stock_data : DataFrame) : option Bar :=
  nth_error (rev stock_data) 0.

Definition spec_yesterday (stock_data : DataFrame) : option Bar :=
  nth_error (rev stock_data) 1.

(** The gap of the most recent bar's open over the previous bar's high. *)
Definition spec_gap (stock_data : DataFrame) : option float64 :=
  match spec_today stock_data, spec_yesterday stock_data with
  | Some today, Some yesterday =>
      Some (NP.mul (NP.div (NP.sub (Open today) (High yesterday))
                           (High yesterday))
                   (of_int 100))
  | _, _ => None
  end.

End SpecReading.

(** ** Notions the statements are written with *)

Import DataCollector WatchlistGen.

(** The signals of a series whose bars 49 and 48 are [today] and
    [yesterday]. *)
Definition signals_at (stock_data : DataFrame) (today yesterday : Bar) : Signals :=
  let volumes := PD.astype_float (firstn 49 (column Volume stock_data)) in
  {| gap := NP.mul (NP.div (NP.sub (Open today) (High yesterday))
                           (High yesterday)) (of_int 100);
     green_initial_day := NP.gtb (Close today) (Open today);
     avg_vol := PD.mean volumes;
     equity_vol := NP.mul (PD.mean (firstn 49 (column Close stock_data)))
                          (PD.median volumes);
     vol_ratio := NP.div (of_int (Volume today)) (PD.mean volumes) |}.

Section Enrichment.

Context {libm : Libm}.
Variable W : World.

(** What the branch of lines 144-151 requests and logs, followed by
    [tail]. *)
Definition fetches (stock : string) (stock_data : DataFrame) (today : Bar)
  (tail : list action) : list action :=
  snd (get_market_cap W stock) ++
  snd (get_short_float W stock) ++
  snd (get_sector W stock) ++
  snd (get_current_price W stock) ++
  snd (get_evidence_of_selling W (Date today) stock) ++
  snd (calculate_volatility (firstn 49 (column Close stock_data)) stock) ++
  snd (closest_number (fst (get_current_price W stock))
                      (High today) (Low today) stock) ++
  tail.

(** The final screen of line 152. *)
Definition final_screen (stock : string) (today : Bar) : bool :=
  fst (closest_number (fst (get_current_price W stock))
                      (High today) (Low today) stock)
  && String.eqb (fst (get_evidence_of_selling W (Date today) stock)) "No".

Definition printed_row (stock : string) (stock_data : DataFrame) (s : Signals)
  (today : Bar) (shown_equity_vol : Z) : Row :=
  {| row_stock := stock; row_date := Date today;
     row_sector := fst (get_sector W stock);
     row_mc := fst (get_market_cap W stock);
     row_equity_vol := shown_equity_vol;
     row_gap := NP.py_round2 (gap s);
     row_vol_ratio := NP.py_round2 (vol_ratio s);
     row_sf := fst (get_short_float W stock);
     row_vol := fst (calculate_volatility
                       (firstn 49 (column Close stock_data)) stock);
     row_evidence := fst (get_evidence_of_selling W (Date today) stock) |}.

Definition counted (self : Watchlist) : Watchlist :=
  {| stocks_in_play := stocks_in_play self + 1; sizzlers := sizzlers self |}.

Definition sizzling (stock : string) (self : Watchlist) : Watchlist :=
  {| stocks_in_play := stocks_in_play self + 1;
     sizzlers := sizzlers self ++ [stock] |}.

End Enrichment.

(** An action that only writes to the log. *)
Definition is_log (a : action) : Prop := exists lvl origin, a = ALog lvl origin.

(** The sum of an integer column. *)
Definition total (l : list Z) : Z := fold_right Z.add 0 l.

(** What one step of the run does to the sizzlers, given the rows it
    printed: the list stays duplicate-free, loses nothing, and holds the
    symbol of every row printed with a volatility above 100. *)
Definition keeps (hot_rows : list string) (before after : Watchlist) : Prop :=
  (NoDup (sizzlers before) -> NoDup (sizzlers after)) /\
  incl (sizzlers before) (sizzlers after) /\
  incl hot_rows (sizzlers after).

(** The symbols of the rows printed with a volatility above 100. *)
Definition hot_action (stock : string) (a : action) : list string :=
  match a with
  | APrint row =>
      match py_gt (row_vol row) 100 with
      | Ok true => [stock]
      | _ => []
      end
  | _ => []
  end.

Definition hot_event (ev : event) : list string :=
  match ev with
  | ETask _ stock a => hot_action stock a
  | _ => []
  end.

Definition hot (t : list event) : list string := flat_map hot_event t.

(** An event of the batch of window size [i]. *)
Definition of_window (i : nat) (ev : event) : Prop :=
  ev = EBanner i \/ exists stock a, ev = ETask i stock a.


(** The requests among the actions of an evaluation, in order. *)
Definition requests (acts : list action) : list request :=
  flat_map (fun a => match a with ARequest r => [r] | _ => [] end) acts.

(** The rows printed by a run, with their window size and symbol. *)
Definition printed_rows (t : list event) : list (nat * string * Row) :=
  flat_map (fun ev => match ev with
                      | ETask i stock (APrint row) => [(i, stock, row)]
                      | _ => []
                      end) t.

(** The minute bars asked for a session stamped [date]. *)
Definition session_request (date : Timestamp) : list request :=
  match ts_tz date with
  | Some _ => [MinuteBars (ts_day date) (ts_day date + 1)]
  | None => []
  end.

(** ** Reading the quote pages

    What [requests.get] and [soup.findAll] deliver is taken as given: the
    texts of the elements found, in document order, or the exception of a
    failed request.  A text is a string of code points below 256. *)

Module Scrape.

(** The white space [str.strip] removes, among the code points below 256:
    tab to carriage return, the four separators 28-31, the space, NEL and
    the no-break space. *)
Definition isspace (c : Ascii.ascii) : bool :=
  let n := Ascii.nat_of_ascii c in
  (Nat.leb 9 n && Nat.leb n 13) || (Nat.leb 28 n && Nat.leb n 32)
  || Nat.eqb n 133 || Nat.eqb n 160.

Fixpoint lstrip (l : list Ascii.ascii) : list Ascii.ascii :=
  match l with
  | [] => []
  | c :: l' => if isspace c then lstrip l' else l
  end.

(** [text.strip()] *)
Definition strip (text : string) : string :=
  string_of_list_ascii
    (rev (lstrip (rev (lstrip (list_ascii_of_string text))))).

(** [text[k:]] *)
Definition slice_from (k : nat) (text : string) : string :=
  string_of_list_ascii (skipn k (list_ascii_of_string text)).

(** [elements[k]] on a Python list. *)
Definition index {A : Type} (elements : list A) (k : nat) : res A :=
  match nth_error elements k with
  | Some x => Ok x
  | None => Raise IndexError
  end.

(** Lines 26-29, from the texts of the [li.kv__item] elements. *)
Definition market_cap_of (found : res (list string)) : res string :=
  (items <- found ;;
   mc <- index items 3 ;;
   Ok (strip (slice_from 11 mc)))%res.

(** Lines 38-41. *)
Definition short_float_of (found : res (list string)) : res string :=
  (items <- found ;;
   sf <- index items 14 ;;
   Ok (strip (slice_from 19 sf)))%res.

(** Lines 50-53, from the texts of the [span.primary] elements. *)
Definition industry_and_sector_of (found : res (list string))
  : res (string * string) :=
  (spans <- found ;;
   industry <- index spans 6 ;;
   sector <- index spans 7 ;;
   Ok (industry, sector))%res.

(** A world whose quote and profile pages are read from the elements
    found on them. *)
Definition reading (kv_items primary_spans : string -> res (list string))
  (W : World) : World :=
  {| stocks := stocks W;
     history := history W;
     market_cap_page := fun stock => market_cap_of (kv_items stock);
     short_float_page := fun stock => short_float_of (kv_items stock);
     sector_page := fun stock => industry_and_sector_of (primary_spans stock);
     price_page := price_page W;
     download := download W |}.

(** No white space at either end. *)
Definition trimmed (text : string) : Prop :=
  match list_ascii_of_string text with
  | [] => True
  | c :: _ => isspace c = false
  end /\
  match rev (list_ascii_of_string text) with
  | [] => True
  | c :: _ => isspace c = false
  end.

End Scrape.

(** The rows among the actions of an evaluation. *)
Definition prints (acts : list action) : list Row :=
  flat_map (fun a => match a with APrint row => [row] | _ => [] end) acts.

(** A printed row shows a volatility above 100. *)
Definition sizzles (row : Row) : Prop := py_gt (row_vol row) 100 = Ok true.

(** What the loop of [main] emits: the banner of a window size in 50..59,
    or something a task of such a window does for a symbol of the
    universe; neither the header nor the summary. *)
Definition in_loop (W : World) (ev : event) : Prop :=
  match ev with
  | EBanner i => In i (seq 50 10)
  | ETask i stock _ => In i (seq 50 10) /\ In stock (stocks W)
  | EHeader | ESummary _ _ => False
  end.

(** The rows the evaluation of [stock] for window size [i] prints, and
    whether it returns: read off a run of the task on a fresh object. *)
Definition rows_of `{Libm} (W : World) (i : nat) (stock : string)
  : list (nat * string * Row) :=
  printed_rows
    (snd (run_task W i stock {| stocks_in_play := 0; sizzlers := [] |})).

Definition returns `{Libm} (W : World) (i : nat) (stock : string) : Prop :=
  fst (fst (run_task W i stock {| stocks_in_play := 0; sizzlers := [] |}))
  = Ok tt.

(** ** Further scenarios *)

Module MoreScenarios.

Import Scenario.

(** Two symbols with the same clean breakout. *)
Definition pair_world : World :=
  world ["AAA"; "BBB"] (fun _ => bars_pass) (Ok (Fin 12)) minutes_up.

(** The request issued second completes first. *)
Definition second_first : Scheduler :=
  {| picks := fun _ => [1%nat]; lag := fun _ => O |}.

Definition pass_row (stock : string) : Row :=
  {| row_stock := stock; row_date := day 49; row_sector := "Software";
     row_mc := "$1.2B"; row_equity_vol := 1000000; row_gap := Fin 2;
     row_vol_ratio := Fin 4; row_sf := "3.1%"; row_vol := PyFloat (Fin 0);
     row_evidence := "No" |}.

End MoreScenarios.



(** * Properties *)

(** ** Arithmetic on float64 *)

Section Float64Facts.

Local Open Scope Q_scope.

Lemma fin_eq (q : Q) : fin q = Fin (Qred q).
Proof. reflexivity. Qed.

Lemma ltb_Fin (a b : Q) : NP.ltb (Fin a) (Fin b) = true <-> a < b.
Proof.
  unfold NP.ltb. rewrite negb_true_iff.
  split; intros H.
  - apply Qnot_le_lt. intros Hle. apply Qle_bool_iff in Hle. congruence.
  - destruct (Qle_bool b a) eqn:E; [|reflexivity].
    apply Qle_bool_iff in E. exfalso. exact (Qlt_not_le _ _ H E).
Qed.

Lemma ltb_Fin_false (a b : Q) : NP.ltb (Fin a) (Fin b) = false <-> b <= a.
Proof.
  unfold NP.ltb. rewrite negb_false_iff. apply Qle_bool_iff.
Qed.

Lemma leb_Fin (a b : Q) : NP.leb (Fin a) (Fin b) = true <-> a <= b.
Proof. apply Qle_bool_iff. Qed.

Lemma ltb_irrefl (x : float64) : NP.ltb x x = false.
Proof.
  destruct x; try reflexivity.
  apply ltb_Fin_false. apply Qle_refl.
Qed.

Lemma ltb_asym (x y : float64) : NP.ltb x y = true -> NP.ltb y x = false.
Proof.
  destruct x, y; simpl; try congruence; try reflexivity.
  intros H. apply ltb_Fin in H. apply ltb_Fin_false. now apply Qlt_le_weak.
Qed.


Lemma round_half_even_int (z : Z) : round_half_even (inject_Z z) = z.
Proof.
  unfold round_half_even. rewrite Qfloor_Z.
  assert (E : (inject_Z z - inject_Z z ?= 1 # 2) = Lt).
  { apply Qlt_alt. setoid_replace (inject_Z z - inject_Z z) with 0 by ring.
    reflexivity. }
  now rewrite E.
Qed.

(** Ties go to the even neighbour, below and above zero. *)
Example round_half_even_samples :
  map round_half_even [5 # 2; 7 # 2; 17 # 5; - (1 # 2); - (3 # 2); 2]
  = [2; 4; 3; 0; -2; 2]%Z.
Proof. reflexivity. Qed.

End Float64Facts.

(** ** The momentum flag *)

Section Momentum.

Local Open Scope Q_scope.



End Momentum.




(** ** The price sentinel *)



(** ** Historical volatility *)

Lemma res_map_total {A B : Type} (f : A -> res B) (l : list A) :
  (forall a, In a l -> exists b, f a = Ok b) ->
  exists bs, res_map f l = Ok bs.
Proof.
  induction l as [|a l IH]; intros H; simpl.
  - now exists [].
  - destruct (H a (or_introl eq_refl)) as [b Hb]. rewrite Hb. simpl.
    destruct IH as [bs Hbs]; [intros; apply H; now right|].
    rewrite Hbs. simpl. now eexists.
Qed.

Lemma getitem_in_range {A : Type} (s : list A) (k : nat) :
  (k < List.length s)%nat -> exists v, PD.getitem s k = Ok v.
Proof.
  intros H. unfold PD.getitem.
  destruct (nth_error s k) eqn:E; [now eexists|].
  apply nth_error_None in E. lia.
Qed.

(** On a Series of floats no step of the computation raises, so the
    handler of [calculate_volatility] is never entered. *)
Lemma volatility_total `{Libm} (closing_prices : list float64) :
  exists vol, volatility closing_prices = Ok vol.
Proof.
  unfold volatility.
  destruct (res_map_total
              (fun i =>
                 (p <- PD.getitem closing_prices i ;;
                  p' <- PD.getitem closing_prices (i - 1) ;;
                  Ok (NP.log (NP.div p p')))%res)
              (seq 1 (List.length closing_prices - 1))) as [rs Hrs].
  - intros i Hi. apply in_seq in Hi.
    destruct (getitem_in_range closing_prices i) as [p Hp]; [lia|].
    destruct (getitem_in_range closing_prices (i - 1)) as [p' Hp']; [lia|].
    rewrite Hp, Hp'. simpl. now eexists.
  - rewrite Hrs. simpl. now eexists.
Qed.

(** C5 (as stated, refuted): on a window of one price the result is the
    float NaN, not the string "No data". *)
Lemma calculate_volatility_single_price :
  @calculate_volatility Scenario.libm12 [Fin 100] "AAPL" = (PyFloat NaN, []) /\
  fst (@calculate_volatility Scenario.libm12 [Fin 100] "AAPL") <> PyStr "No data".
Proof. split; [reflexivity|discriminate]. Qed.

(** C5 (amended): on fewer than two closing prices [calculate_volatility]
    raises nothing, logs nothing and returns the float NaN: neither zero,
    nor a finite number, nor the string "No data". *)
Theorem calculate_volatility_short `{Libm}
  (closing_prices : list float64) (stock : string) :
  (List.length closing_prices < 2)%nat ->
  calculate_volatility closing_prices stock = (PyFloat NaN, []).
Proof.
  intros Hlen.
  destruct closing_prices as [|p [|p' rest]]; simpl in Hlen; try lia;
    reflexivity.
Qed.

Lemma calculate_volatility_short_witness :
  @calculate_volatility Scenario.libm12 [] "AAPL" = (PyFloat NaN, []).
Proof.
  apply (@calculate_volatility_short Scenario.libm12 [] "AAPL").
  simpl. lia.
Defined.

(** ** Evidence of selling *)










(** ** The bar used as "today" *)

Lemma signals_Ok (stock_data : DataFrame) (today yesterday : Bar) :
  nth_error stock_data 49 = Some today ->
  nth_error stock_data 48 = Some yesterday ->
  signals stock_data = Ok (signals_at stock_data today yesterday).
Proof.
  intros H49 H48. unfold signals, column, PD.getitem.
  rewrite !nth_error_map, H49, H48. reflexivity.
Qed.

Lemma signals_short (stock_data : DataFrame) :
  (List.length stock_data < 50)%nat -> signals stock_data = Raise KeyError.
Proof.
  intros H. unfold signals, column, PD.getitem.
  rewrite !nth_error_map.
  assert (E : nth_error stock_data 49 = None) by (apply nth_error_None; lia).
  now rewrite E.
Qed.

Lemma long_enough (stock_data : DataFrame) :
  (50 <= List.length stock_data)%nat ->
  exists today yesterday,
    nth_error stock_data 49 = Some today /\
    nth_error stock_data 48 = Some yesterday.
Proof.
  intros H.
  destruct (nth_error stock_data 49) as [today|] eqn:E49;
    [|apply nth_error_None in E49; lia].
  destruct (nth_error stock_data 48) as [yesterday|] eqn:E48;
    [|apply nth_error_None in E48; lia].
  now exists today, yesterday.
Qed.

Lemma signals_Ok_inv (stock_data : DataFrame) (s : Signals) :
  signals stock_data = Ok s ->
  exists today yesterday,
    nth_error stock_data 49 = Some today /\
    nth_error stock_data 48 = Some yesterday /\
    s = signals_at stock_data today yesterday.
Proof.
  intros Hs.
  destruct (Nat.lt_ge_cases (List.length stock_data) 50) as [Hlt|Hge].
  - rewrite (signals_short _ Hlt) in Hs. discriminate.
  - destruct (long_enough _ Hge) as (today & yesterday & H49 & H48).
    exists today, yesterday. repeat split; trivial.
    rewrite (signals_Ok _ _ _ H49 H48) in Hs. congruence.
Qed.

Lemma signals_Ok_len (stock_data : DataFrame) (s : Signals) :
  signals stock_data = Ok s -> Nat.ltb (List.length stock_data) 50 = false.
Proof.
  intros Hs. apply Nat.ltb_ge.
  destruct (Nat.lt_ge_cases (List.length stock_data) 50) as [Hlt|Hge];
    [|exact Hge].
  rewrite (signals_short _ Hlt) in Hs. discriminate.
Qed.

(** Bars after index 49 play no part. *)
Lemma signals_firstn_50 (stock_data : DataFrame) :
  signals stock_data = signals (firstn 50 stock_data).
Proof.
  unfold signals, column, PD.getitem.
  rewrite !nth_error_map, !nth_error_firstn. simpl Nat.ltb. cbv iota.
  rewrite <- !firstn_map, !firstn_firstn. reflexivity.
Qed.

(** C2 (as stated, refuted): in a 51-bar window the gap is taken from bars
    49 and 48, and differs from the gap of the last bar over the one before
    it. *)
Lemma gap_of_51_bars_not_from_last :
  List.length Scenario.bars51 = 51%nat /\
  res_bind (signals Scenario.bars51) (fun s => Ok (gap s)) = Ok (Fin 2) /\
  SpecReading.spec_gap Scenario.bars51 = Some (Fin (-175 # 3)).
Proof. repeat split; vm_compute; reflexivity. Qed.

(** C2 (amended): for every window size N in 50..59 and every series of
    that length, the bar used as "today" (gap, green-day test, today's
    volume) is the element at index 49 and "yesterday" the element at index
    48, that is the bars N-50 and N-49 places before the last one; bars
    after index 49 are ignored.  They are the last and the second-to-last
    element exactly when N = 50. *)
Theorem today_is_index_49 (N : nat) (stock_data : DataFrame) :
  (50 <= N <= 59)%nat ->
  List.length stock_data = N ->
  exists today yesterday s,
    nth_error stock_data 49 = Some today /\
    nth_error stock_data 48 = Some yesterday /\
    nth_error (rev stock_data) (N - 50) = Some today /\
    nth_error (rev stock_data) (N - 49) = Some yesterday /\
    signals stock_data = Ok s /\
    signals (firstn 50 stock_data) = Ok s /\
    gap s = NP.mul (NP.div (NP.sub (Open today) (High yesterday))
                           (High yesterday)) (of_int 100) /\
    green_initial_day s = NP.gtb (Close today) (Open today) /\
    vol_ratio s = NP.div (of_int (Volume today)) (avg_vol s) /\
    (N = 50%nat ->
     SpecReading.spec_today stock_data = Some today /\
     SpecReading.spec_yesterday stock_data = Some yesterday).
Proof.
  intros HN Hlen.
  destruct (long_enough stock_data) as (today & yesterday & H49 & H48); [lia|].
  exists today, yesterday, (signals_at stock_data today yesterday).
  assert (R : forall k, (k < N)%nat ->
                        nth_error (rev stock_data) k
                        = nth_error stock_data (N - S k)).
  { intros k Hk. rewrite nth_error_rev, Hlen.
    destruct (Nat.ltb_spec k N); [reflexivity|lia]. }
  repeat split; trivial.
  - rewrite R by lia. replace (N - S (N - 50))%nat with 49%nat by lia. exact H49.
  - rewrite R by lia. replace (N - S (N - 49))%nat with 48%nat by lia. exact H48.
  - now apply signals_Ok.
  - rewrite <- signals_firstn_50. now apply signals_Ok.
  - unfold SpecReading.spec_today. rewrite R by lia.
    replace (N - 1)%nat with 49%nat by lia. exact H49.
  - unfold SpecReading.spec_yesterday. rewrite R by lia.
    replace (N - 2)%nat with 48%nat by lia. exact H48.
Qed.

Lemma today_is_index_49_witness :
  exists today yesterday s,
    nth_error Scenario.bars51 49 = Some today /\
    nth_error Scenario.bars51 48 = Some yesterday /\
    nth_error (rev Scenario.bars51) (51 - 50) = Some today /\
    nth_error (rev Scenario.bars51) (51 - 49) = Some yesterday /\
    signals Scenario.bars51 = Ok s /\
    signals (firstn 50 Scenario.bars51) = Ok s /\
    gap s = NP.mul (NP.div (NP.sub (Open today) (High yesterday))
                           (High yesterday)) (of_int 100) /\
    green_initial_day s = NP.gtb (Close today) (Open today) /\
    vol_ratio s = NP.div (of_int (Volume today)) (avg_vol s) /\
    (51%nat = 50%nat ->
     SpecReading.spec_today Scenario.bars51 = Some today /\
     SpecReading.spec_yesterday Scenario.bars51 = Some yesterday).
Proof.
  apply (today_is_index_49 51 Scenario.bars51); [lia|reflexivity].
Defined.

(** ** One evaluation, case by case *)

Section Evaluation.

Context {libm : Libm}.
Variable W : World.

Lemma enrich_eq (stock : string) (stock_data : DataFrame) (s : Signals)
  (today : Bar) (self : Watchlist) :
  nth_error stock_data 49 = Some today ->
  enrich W stock stock_data s self
  = if final_screen W stock today then
      match NP.py_round (equity_vol s) with
      | Raise e => (Raise e, self, fetches W stock stock_data today [])
      | Ok shown =>
          let row := printed_row W stock stock_data s today shown in
          match py_gt (row_vol row) 100 with
          | Raise e =>
              (Raise e, counted self,
               fetches W stock stock_data today [APrint row])
          | Ok hot =>
              (Ok tt,
               if hot && negb (mem stock (sizzlers self))
               then sizzling stock self else counted self,
               fetches W stock stock_data today [APrint row])
          end
      end
    else (Ok tt, self, fetches W stock stock_data today []).
Proof.
  intros H49.
  unfold enrich, column, PD.getitem.
  rewrite !nth_error_map, H49. simpl option_map. cbv iota.
  unfold bind, lift, io, emit, get_self, set_self, ret, final_screen, fetches,
    printed_row, column.
  cbv beta iota.
  destruct (fst (closest_number _ _ _ _) && _); [|reflexivity].
  destruct (NP.py_round (equity_vol s)) as [shown|e]; [|reflexivity].
  cbv beta iota zeta. simpl row_vol.
  destruct (py_gt _ 100) as [hot|e]; [|reflexivity].
  cbn [sizzlers stocks_in_play].
  destruct (hot && negb (mem stock (sizzlers self))); reflexivity.
Qed.

Lemma passes_screen_raises (s : Signals) (e : exn) :
  passes_screen s = Raise e -> e = OverflowError \/ e = ValueError.
Proof.
  assert (R : forall x z, NP.py_round x = Raise z ->
                          z = OverflowError \/ z = ValueError).
  { intros [q| | |] z; simpl; intros [=]; subst; auto. }
  unfold passes_screen.
  destruct (green_initial_day s); [|discriminate].
  destruct (NP.py_round (gap s)) as [g|z] eqn:Eg; cbn [res_bind];
    [|intros [= <-]; eapply R; eassumption].
  destruct (Z.geb g 2); [|discriminate].
  destruct (NP.geb (equity_vol s) (of_int 250000)); [|discriminate].
  destruct (NP.py_round (vol_ratio s)) as [r|z] eqn:Er; cbn [res_bind];
    [discriminate|intros [= <-]; eapply R; eassumption].
Qed.

(** [get_stock_data] once the history request has answered with a series
    of at least 50 bars. *)
Lemma get_stock_data_screened (stock : string) (i : nat)
  (stock_data : DataFrame) (s : Signals) (self : Watchlist) :
  signals stock_data = Ok s ->
  get_stock_data W stock i (Ok stock_data) self
  = match passes_screen s with
    | Ok true => get_stock_data W stock i (Ok stock_data) self
    | Ok false => (Ok tt, self, [])
    | Raise e => (Raise e, self, [])
    end.
Proof.
  intros Hs.
  destruct (passes_screen s) as [[|]|e] eqn:Hp; [reflexivity| |].
  - unfold get_stock_data, try_except, bind, lift, emit, ret.
    pose proof (signals_Ok_len _ _ Hs) as Hlen.
    rewrite Hlen, Hs, Hp. reflexivity.
  - unfold get_stock_data, try_except, bind, lift, emit, ret.
    pose proof (signals_Ok_len _ _ Hs) as Hlen.
    rewrite Hlen, Hs, Hp.
    destruct (passes_screen_raises _ _ Hp) as [-> | ->]; reflexivity.
Qed.

(** When the screen passes, the evaluation is the enrichment branch: none
    of the exceptions it can raise is one the handlers catch. *)
Lemma get_stock_data_passed (stock : string) (i : nat)
  (stock_data : DataFrame) (s : Signals) (self : Watchlist) :
  signals stock_data = Ok s ->
  passes_screen s = Ok true ->
  get_stock_data W stock i (Ok stock_data) self
  = enrich W stock stock_data s self.
Proof.
  intros Hs Hp.
  destruct (signals_Ok_inv _ _ Hs) as (today & yesterday & H49 & _ & _).
  pose proof (signals_Ok_len _ _ Hs) as Hlen.
  unfold get_stock_data, try_except, bind at 1 2 3 4, lift, emit, ret.
  rewrite Hlen, Hs, Hp. cbv beta iota.
  rewrite (enrich_eq stock stock_data s today self H49).
  destruct (final_screen W stock today); [|reflexivity].
  destruct (equity_vol s) as [q| | |];
    try (cbn [NP.py_round]; cbv beta iota; now rewrite app_nil_r).
  cbn [NP.py_round]. cbv zeta.
  destruct (row_vol _) as [x|z|str]; try reflexivity.
  cbn [py_gt to_float res_bind]. cbv beta iota.
  cbn [app]. now rewrite app_nil_r.
Qed.

(** Without a passing screen the evaluation touches nothing and only
    logs. *)
Lemma get_stock_data_rejected (stock : string) (i : nat)
  (fetched : res DataFrame) (self : Watchlist) :
  (forall stock_data s,
     fetched = Ok stock_data -> signals stock_data = Ok s ->
     passes_screen s <> Ok true) ->
  snd (fst (get_stock_data W stock i fetched self)) = self /\
  Forall is_log (snd (get_stock_data W stock i fetched self)).
Proof.
  intros Hrej.
  destruct fetched as [stock_data|e].
  - destruct (signals stock_data) as [s|e] eqn:Hs.
    + rewrite (get_stock_data_screened stock i stock_data s self Hs).
      specialize (Hrej stock_data s eq_refl Hs).
      destruct (passes_screen s) as [[|]|e]; [congruence| |];
        split; constructor.
    + assert (Hlt : (List.length stock_data < 50)%nat).
      { destruct (Nat.lt_ge_cases (List.length stock_data) 50) as [Hlt|Hge];
          [exact Hlt|].
        destruct (long_enough _ Hge) as (t & y & H49 & H48).
        rewrite (signals_Ok _ _ _ H49 H48) in Hs. discriminate. }
      rewrite (signals_short _ Hlt) in Hs. injection Hs as <-.
      unfold get_stock_data, try_except, bind, lift, emit, ret.
      apply Nat.ltb_lt in Hlt. rewrite Hlt.
      rewrite (signals_short _ (proj1 (Nat.ltb_lt _ _) Hlt)).
      simpl. split; [reflexivity|].
      repeat constructor; now eexists; eexists.
  - unfold get_stock_data, try_except, bind, lift, emit, ret.
    destruct e; simpl; split; try reflexivity; repeat constructor;
      now eexists; eexists.
Qed.

(** The whole evaluation reads the first 50 bars only. *)
Lemma get_stock_data_firstn_50 (stock : string) (i : nat)
  (stock_data : DataFrame) (self : Watchlist) :
  (50 <= List.length stock_data)%nat ->
  get_stock_data W stock i (Ok stock_data) self
  = get_stock_data W stock i (Ok (firstn 50 stock_data)) self.
Proof.
  intros Hlen.
  destruct (long_enough _ Hlen) as (today & yesterday & H49 & H48).
  assert (H49' : nth_error (firstn 50 stock_data) 49 = Some today).
  { rewrite nth_error_firstn. exact H49. }
  assert (Hs : signals stock_data = Ok (signals_at stock_data today yesterday))
    by now apply signals_Ok.
  assert (Hs' : signals (firstn 50 stock_data)
                = Ok (signals_at stock_data today yesterday))
    by now rewrite <- signals_firstn_50.
  pose proof (get_stock_data_screened stock i _ _ self Hs) as E.
  pose proof (get_stock_data_screened stock i _ _ self Hs') as E'.
  destruct (passes_screen (signals_at stock_data today yesterday))
    as [[|]|e] eqn:Hp;
    try (etransitivity; [exact E|symmetry; exact E']).
  clear E E'.
  etransitivity; [exact (get_stock_data_passed stock i _ _ self Hs Hp)|].
  etransitivity; [|symmetry; exact (get_stock_data_passed stock i _ _ self Hs' Hp)].
  rewrite (enrich_eq stock _ _ today self H49).
  rewrite (enrich_eq stock _ _ today self H49').
  unfold fetches, printed_row, column.
  rewrite <- !firstn_map, !firstn_firstn. reflexivity.
Qed.

End Evaluation.

(** ** A zero average volume *)

Section ZeroAverage.

Local Open Scope Q_scope.

Lemma sum_of_ints (l : list Z) (a : Q) :
  exists q, fold_left NP.add (map of_int l) (Fin a) = Fin q /\
            q == a + inject_Z (total l).
Proof.
  revert a. induction l as [|v l IH]; intros a; simpl.
  - exists a. split; [reflexivity|]. ring.
  - destruct (IH (Qred (a + inject_Z v))) as (q & E & Hq).
    exists q. split; [exact E|].
    rewrite Hq, Qred_correct, inject_Z_plus. ring.
Qed.

Lemma dropna_ints (l : list Z) : PD.dropna (map of_int l) = map of_int l.
Proof.
  unfold PD.dropna. induction l as [|v l IH]; simpl; [reflexivity|].
  now rewrite IH.
Qed.

Lemma sum_zero (l : list Z) :
  (forall v, In v l -> (0 <= v)%Z) -> total l = 0%Z -> Forall (eq 0%Z) l.
Proof.
  induction l as [|v l IH]; intros Hpos Hsum; [constructor|].
  simpl in Hsum.
  assert (Hv : (0 <= v)%Z) by (apply Hpos; now left).
  assert (Hl : (0 <= total l)%Z).
  { clear -Hpos. induction l as [|w l IH]; simpl; [lia|].
    assert (0 <= w)%Z by (apply Hpos; right; now left).
    assert (0 <= total l)%Z; [|lia].
    apply IH. intros u [->|Hu]; apply Hpos; [now left|right; now right]. }
  constructor; [lia|].
  apply IH; [intros; apply Hpos; now right|lia].
Qed.

(** A mean of zero over non-negative volumes means no volume at all. *)
Lemma mean_zero_all_zero (l : list Z) :
  l <> [] ->
  (forall v, In v l -> (0 <= v)%Z) ->
  PD.mean (PD.astype_float l) = of_int 0 ->
  l = repeat 0%Z (List.length l).
Proof.
  intros Hne Hpos Hmean.
  apply Forall_eq_repeat. apply sum_zero; [exact Hpos|].
  unfold PD.mean, PD.astype_float in Hmean.
  rewrite dropna_ints, length_map in Hmean. unfold NP.sum in Hmean.
  destruct (sum_of_ints l 0) as (q & E & Hq). rewrite E in Hmean.
  unfold NP.div, of_int in Hmean.
  assert (Hn : ~ inject_Z (Z.of_nat (List.length l)) == 0).
  { change 0 with (inject_Z 0). rewrite inject_Z_injective.
    destruct l; [congruence|simpl; lia]. }
  destruct (Qeq_bool (inject_Z (Z.of_nat (List.length l))) 0) eqn:Eb.
  - apply Qeq_bool_iff in Eb. contradiction.
  - unfold fin in Hmean.
    assert (Hz : q / inject_Z (Z.of_nat (List.length l)) == 0).
    { rewrite <- (Qred_correct (q / inject_Z (Z.of_nat (List.length l)))).
      replace (Qred (q / inject_Z (Z.of_nat (List.length l))))
        with (inject_Z 0) by congruence.
      reflexivity. }
    assert (Hq0 : q == 0).
    { rewrite <- (Qmult_div_r q _ Hn), Hz. ring. }
    rewrite Hq in Hq0. rewrite Qplus_0_l in Hq0.
    apply (inject_Z_injective (total l) 0%Z). exact Hq0.
Qed.

Lemma sort_repeat (x : float64) (n : nat) :
  NP.leb x x = true -> PD.sort (repeat x n) = repeat x n.
Proof.
  intros Hx. induction n as [|n IH]; [reflexivity|].
  change (PD.sort (repeat x (S n))) with (PD.insert x (PD.sort (repeat x n))).
  rewrite IH.
  destruct n; simpl; [reflexivity|]. now rewrite Hx.
Qed.

Lemma median_no_volume (n : nat) :
  (0 < n)%nat -> PD.median (PD.astype_float (repeat 0%Z n)) = Fin 0.
Proof.
  intros Hn. unfold PD.median, PD.astype_float.
  rewrite map_repeat. change (of_int 0) with (Fin 0).
  assert (Ed : PD.dropna (repeat (Fin 0) n) = repeat (Fin 0) n).
  { clear. unfold PD.dropna. induction n; simpl; [reflexivity|]. now rewrite IHn. }
  rewrite Ed, sort_repeat by reflexivity. rewrite repeat_length.
  destruct (Nat.eqb_spec n 0) as [->|_]; [lia|].
  assert (Hhalf : (Nat.div n 2 < n)%nat) by (apply Nat.div_lt; lia).
  destruct (Nat.odd n).
  - now apply nth_repeat_lt.
  - rewrite !nth_repeat_lt by lia. reflexivity.
Qed.

(** The product of any mean price with a zero median stays below the
    liquidity threshold. *)
Lemma no_liquidity (m : float64) :
  NP.geb (NP.mul m (Fin 0)) (of_int 250000) = false.
Proof.
  destruct m as [c| | |]; try reflexivity.
  unfold NP.geb, NP.mul, fin, of_int, NP.leb.
  destruct (Qle_bool (inject_Z 250000) (Qred (c * 0))) eqn:E; [|reflexivity].
  apply Qle_bool_iff in E. rewrite Qred_correct, Qmult_0_r in E.
  exfalso. revert E. apply Qlt_not_le. reflexivity.
Qed.

End ZeroAverage.

(** ** The initial screen and the fetches *)

Section Screen.

Context {libm : Libm}.
Variable W : World.

Lemma passes_screen_true (s : Signals) :
  passes_screen s = Ok true <->
  green_initial_day s = true /\
  (exists g, NP.py_round (gap s) = Ok g /\ 2 <= g) /\
  NP.geb (equity_vol s) (of_int 250000) = true /\
  (exists r, NP.py_round (vol_ratio s) = Ok r /\ 3 < r).
Proof.
  unfold passes_screen. split.
  - destruct (green_initial_day s); [|discriminate].
    destruct (NP.py_round (gap s)) as [g|e]; [|discriminate]. cbn [res_bind].
    destruct (Z.geb g 2) eqn:Eg; [|discriminate].
    destruct (NP.geb (equity_vol s) (of_int 250000)); [|discriminate].
    destruct (NP.py_round (vol_ratio s)) as [r|e]; [|discriminate].
    cbn [res_bind]. intros [= Hr].
    repeat split.
    + exists g. split; [reflexivity|]. apply Z.geb_le in Eg. lia.
    + exists r. split; [reflexivity|]. apply Z.gtb_lt in Hr. lia.
  - intros (-> & (g & -> & Hg) & -> & (r & -> & Hr)). cbn [res_bind].
    assert (Eg : Z.geb g 2 = true) by (apply Z.geb_le; lia).
    assert (Er : Z.gtb r 3 = true) by (apply Z.gtb_lt; lia).
    now rewrite Eg, Er.
Qed.

Lemma fetches_request (stock : string) (stock_data : DataFrame) (today : Bar)
  (tail : list action) :
  In (ARequest MarketCapPage) (fetches W stock stock_data today tail).
Proof.
  unfold fetches, get_market_cap. apply in_or_app. left.
  destruct (market_cap_page W stock); simpl; auto.
Qed.

Lemma enrich_requests (stock : string) (stock_data : DataFrame) (s : Signals)
  (today : Bar) (self : Watchlist) :
  nth_error stock_data 49 = Some today ->
  In (ARequest MarketCapPage) (snd (enrich W stock stock_data s self)).
Proof.
  intros H49. rewrite (enrich_eq W stock stock_data s today self H49).
  destruct (final_screen W stock today); [|apply fetches_request].
  destruct (NP.py_round (equity_vol s)); [|apply fetches_request].
  cbv zeta. destruct (py_gt _ 100); apply fetches_request.
Qed.

(** C6: when the day is green, the rounded gap is at least 2 and the equity
    volume at least 250,000 but the volume ratio rounds to 3, the
    evaluation returns having requested nothing, printed nothing and left
    the counters as they were; a request is made if and only if the four
    conditions of the initial screen all hold. *)
Theorem fetch_iff_screen_passes (stock : string) (i : nat)
  (fetched : res DataFrame) (self : Watchlist) :
  (forall stock_data s g,
     fetched = Ok stock_data ->
     signals stock_data = Ok s ->
     green_initial_day s = true ->
     NP.py_round (gap s) = Ok g -> 2 <= g ->
     NP.geb (equity_vol s) (of_int 250000) = true ->
     NP.py_round (vol_ratio s) = Ok 3 ->
     get_stock_data W stock i fetched self = (Ok tt, self, [])) /\
  ((exists rq, In (ARequest rq) (snd (get_stock_data W stock i fetched self)))
   <->
   (exists stock_data s,
      fetched = Ok stock_data /\
      signals stock_data = Ok s /\
      green_initial_day s = true /\
      (exists g, NP.py_round (gap s) = Ok g /\ 2 <= g) /\
      NP.geb (equity_vol s) (of_int 250000) = true /\
      (exists r, NP.py_round (vol_ratio s) = Ok r /\ 3 < r))).
Proof.
  split; [|split].
  - intros stock_data s g -> Hs Hgreen Hg Hg2 Heq Hr.
    rewrite (get_stock_data_screened W stock i stock_data s self Hs).
    assert (Hp : passes_screen s = Ok false).
    { unfold passes_screen. rewrite Hgreen, Hg, Heq, Hr. cbn [res_bind].
      assert (Eg : Z.geb g 2 = true) by (apply Z.geb_le; lia).
      now rewrite Eg. }
    now rewrite Hp.
  - intros (rq & Hin).
    destruct fetched as [stock_data|e].
    + destruct (signals stock_data) as [s|e] eqn:Hs.
      * destruct (passes_screen s) as [[|]|e] eqn:Hp.
        -- exists stock_data, s. apply passes_screen_true in Hp. tauto.
        -- exfalso.
           destruct (get_stock_data_rejected W stock i (Ok stock_data) self)
             as [_ Hlog].
           { intros d s' [= <-] Hs'. congruence. }
           rewrite Forall_forall in Hlog.
           destruct (Hlog _ Hin) as (lvl & o & [=]).
        -- exfalso.
           destruct (get_stock_data_rejected W stock i (Ok stock_data) self)
             as [_ Hlog].
           { intros d s' [= <-] Hs'. congruence. }
           rewrite Forall_forall in Hlog.
           destruct (Hlog _ Hin) as (lvl & o & [=]).
      * exfalso.
        destruct (get_stock_data_rejected W stock i (Ok stock_data) self)
          as [_ Hlog].
        { intros d s' [= <-] Hs'. congruence. }
        rewrite Forall_forall in Hlog.
        destruct (Hlog _ Hin) as (lvl & o & [=]).
    + exfalso.
      destruct (get_stock_data_rejected W stock i (Raise e) self) as [_ Hlog].
      { intros d s' [=]. }
      rewrite Forall_forall in Hlog.
      destruct (Hlog _ Hin) as (lvl & o & [=]).
  - intros (stock_data & s & -> & Hs & Hscreen).
    apply passes_screen_true in Hscreen.
    rewrite (get_stock_data_passed W stock i stock_data s self Hs Hscreen).
    destruct (signals_Ok_inv _ _ Hs) as (today & _ & H49 & _).
    exists MarketCapPage. now apply enrich_requests with (today := today).
Qed.

(** C3 (amended): when the 49 earlier volumes are non-negative and their
    mean is zero, the quotient [vol_ratio] is an infinity or NaN (there is
    no sentinel and no guard), yet it is never rounded: the median volume
    is then zero, the equity volume misses the threshold, the condition
    stops at its third operand whatever the ratio is, and the evaluation
    requests nothing and changes nothing.  The only exception that can
    leave it is the one [round(gap)] raises. *)
Theorem zero_average_volume_never_rounded (stock : string) (i : nat)
  (stock_data : DataFrame) (s : Signals) (self : Watchlist) :
  signals stock_data = Ok s ->
  (forall b, In b (firstn 49 stock_data) -> 0 <= Volume b) ->
  avg_vol s = of_int 0 ->
  (vol_ratio s = PosInf \/ vol_ratio s = NegInf \/ vol_ratio s = NaN) /\
  NP.geb (equity_vol s) (of_int 250000) = false /\
  (forall ratio,
     passes_screen {| gap := gap s;
                      green_initial_day := green_initial_day s;
                      avg_vol := avg_vol s; equity_vol := equity_vol s;
                      vol_ratio := ratio |} = passes_screen s) /\
  passes_screen s <> Ok true /\
  (forall e, passes_screen s = Raise e -> NP.py_round (gap s) = Raise e) /\
  snd (fst (get_stock_data W stock i (Ok stock_data) self)) = self /\
  snd (get_stock_data W stock i (Ok stock_data) self) = [].
Proof.
  intros Hs Hpos Havg.
  destruct (signals_Ok_inv _ _ Hs) as (today & yesterday & H49 & H48 & ->).
  cbn [avg_vol vol_ratio equity_vol gap green_initial_day] in *.
  assert (Hlen : List.length (firstn 49 (column Volume stock_data)) = 49%nat).
  { unfold column. rewrite length_firstn, length_map.
    assert (49 < List.length stock_data)%nat
      by (apply nth_error_Some; congruence).
    lia. }
  assert (Hzero : firstn 49 (column Volume stock_data) = repeat 0 49).
  { rewrite (mean_zero_all_zero (firstn 49 (column Volume stock_data)));
      [now rewrite Hlen| | |].
    - intros E. rewrite E in Hlen. discriminate.
    - intros v Hv. unfold column in Hv. rewrite firstn_map in Hv.
      apply in_map_iff in Hv. destruct Hv as (b & <- & Hb). now apply Hpos.
    - exact Havg. }
  assert (Hliq : NP.geb (NP.mul (PD.mean (firstn 49 (column Close stock_data)))
                                (PD.median (PD.astype_float
                                              (firstn 49 (column Volume stock_data)))))
                        (of_int 250000) = false).
  { rewrite Hzero, median_no_volume by lia. apply no_liquidity. }
  assert (Hscreen : forall ratio,
             passes_screen
               {| gap := NP.mul (NP.div (NP.sub (Open today) (High yesterday))
                                        (High yesterday)) (of_int 100);
                  green_initial_day := NP.gtb (Close today) (Open today);
                  avg_vol := PD.mean (PD.astype_float
                                        (firstn 49 (column Volume stock_data)));
                  equity_vol :=
                    NP.mul (PD.mean (firstn 49 (column Close stock_data)))
                           (PD.median (PD.astype_float
                                         (firstn 49 (column Volume stock_data))));
                  vol_ratio := ratio |}
             = if NP.gtb (Close today) (Open today)
               then res_bind
                      (NP.py_round
                         (NP.mul (NP.div (NP.sub (Open today) (High yesterday))
                                         (High yesterday)) (of_int 100)))
                      (fun _ => Ok false)
               else Ok false).
  { intros ratio. unfold passes_screen.
    cbn [avg_vol vol_ratio equity_vol gap green_initial_day].
    rewrite Hliq.
    destruct (NP.gtb (Close today) (Open today)); [|reflexivity].
    destruct (NP.py_round _) as [g|e]; [|reflexivity]. cbn [res_bind].
    now destruct (Z.geb g 2). }
  assert (Hnot : passes_screen (signals_at stock_data today yesterday)
                 <> Ok true).
  { unfold signals_at. rewrite Hscreen.
    destruct (NP.gtb (Close today) (Open today)); [|discriminate].
    destruct (NP.py_round _); discriminate. }
  split; [|split; [|split; [|split; [|split]]]].
  - unfold signals_at in Havg |- *. cbn [vol_ratio avg_vol] in Havg |- *.
    rewrite Havg. unfold NP.div, of_int. simpl Qeq_bool. cbv iota.
    destruct (inject_Z (Volume today) ?= 0)%Q; simpl; auto.
  - exact Hliq.
  - intros ratio. unfold signals_at. now rewrite !Hscreen.
  - exact Hnot.
  - intros e. unfold signals_at. rewrite Hscreen.
    cbn [gap].
    destruct (NP.gtb (Close today) (Open today)); [|discriminate].
    destruct (NP.py_round _) as [g|e']; [discriminate|].
    cbn [res_bind]. congruence.
  - rewrite (get_stock_data_screened W stock i stock_data _ self Hs).
    unfold signals_at. rewrite Hscreen.
    destruct (NP.gtb (Close today) (Open today));
      [destruct (NP.py_round _)|]; split; reflexivity.
Qed.

End Screen.

(** ** The screen on concrete series *)

Import Scenario.

Lemma fetch_iff_screen_passes_witness :
  @get_stock_data libm12 one_symbol "AAA" 50 (Ok bars_ratio3) fresh
  = (Ok tt, fresh, []).
Proof.
  destruct (@fetch_iff_screen_passes libm12 one_symbol "AAA" 50
              (Ok bars_ratio3) fresh) as [Hthree _].
  apply (Hthree bars_ratio3
                {| gap := Fin 2; green_initial_day := true;
                   avg_vol := Fin 100000; equity_vol := Fin 1000000;
                   vol_ratio := Fin (17 # 5) |} 2);
    reflexivity.
Defined.

(** C3 (as stated, refuted): with no trading before the breakout the
    quotient is plus infinity, not a sentinel; and on a series of signed
    volumes whose mean is zero that infinity reaches [round] and the
    exception leaves the evaluation. *)
Lemma zero_average_volume_is_unguarded :
  res_bind (signals bars_no_volume) (fun s => Ok (avg_vol s, vol_ratio s))
  = Ok (Fin 0, PosInf) /\
  res_bind (signals bars_signed_volume) (fun s => Ok (avg_vol s, vol_ratio s))
  = Ok (Fin 0, PosInf) /\
  @get_stock_data libm12 one_symbol "AAA" 50 (Ok bars_signed_volume) fresh
  = (Raise OverflowError, fresh, []).
Proof. repeat split; vm_compute; reflexivity. Qed.

Lemma zero_average_volume_never_rounded_witness :
  snd (fst (@get_stock_data libm12 one_symbol "AAA" 50 (Ok bars_no_volume) fresh))
  = fresh /\
  snd (@get_stock_data libm12 one_symbol "AAA" 50 (Ok bars_no_volume) fresh) = [].
Proof.
  apply (@zero_average_volume_never_rounded libm12 one_symbol "AAA" 50
           bars_no_volume
           {| gap := Fin 2; green_initial_day := true; avg_vol := Fin 0;
              equity_vol := Fin 0; vol_ratio := PosInf |} fresh).
  - reflexivity.
  - intros b Hb. vm_compute in Hb.
    repeat (destruct Hb as [<-|Hb]; [vm_compute; discriminate|]).
    contradiction.
  - reflexivity.
Defined.

(** ** The sizzlers across a run *)

Section Sizzlers.

Context {libm : Libm}.
Variable W : World.

Lemma mem_In (stock : string) (l : list string) :
  mem stock l = true <-> In stock l.
Proof.
  unfold mem. rewrite existsb_exists. split.
  - intros (x & Hx & E). apply String.eqb_eq in E. now subst.
  - intros H. exists stock. split; [exact H|apply String.eqb_refl].
Qed.

Lemma fetches_print (stock : string) (stock_data : DataFrame) (today : Bar)
  (tail : list action) (row : Row) :
  In (APrint row) (fetches W stock stock_data today tail) ->
  In (APrint row) tail.
Proof.
  unfold fetches, get_market_cap, get_short_float, get_sector,
    get_current_price, get_evidence_of_selling, calculate_volatility,
    closest_number.
  intros H.
  repeat (apply in_app_or in H; destruct H as [H|H]);
    try exact H; exfalso.
  - destruct (market_cap_page W stock); simpl in H; intuition discriminate.
  - destruct (short_float_page W stock); simpl in H; intuition discriminate.
  - destruct (sector_page W stock) as [[? ?]|]; simpl in H;
      intuition discriminate.
  - destruct (price_page W stock); simpl in H; intuition discriminate.
  - destruct (strptime_day (Date today)); [|simpl in H; intuition discriminate].
    destruct (res_bind _ selling_verdict); simpl in H; intuition discriminate.
  - destruct (volatility _); simpl in H; intuition discriminate.
  - match type of H with
    | In _ (snd (match ?r with _ => _ end)) => destruct r
    end; simpl in H; intuition discriminate.
Qed.

Lemma keeps_refl (self : Watchlist) : keeps [] self self.
Proof. repeat split; auto using incl_refl. intros x []. Qed.

Lemma keeps_trans (h h' : list string) (a b c : Watchlist) :
  keeps h a b -> keeps h' b c -> keeps (h ++ h') a c.
Proof.
  intros (N1 & I1 & H1) (N2 & I2 & H2). repeat split.
  - auto.
  - eapply incl_tran; eassumption.
  - apply incl_app; [eapply incl_tran; eassumption|exact H2].
Qed.

Lemma hot_app (t t' : list event) : hot (t ++ t') = hot t ++ hot t'.
Proof. apply flat_map_app. Qed.

Lemma hot_fetches (stock : string) (stock_data : DataFrame) (today : Bar)
  (tail : list action) :
  flat_map (hot_action stock) (fetches W stock stock_data today tail)
  = flat_map (hot_action stock) tail.
Proof.
  assert (Hlog : forall l tl,
             (forall row, ~ In (APrint row) l) ->
             flat_map (hot_action stock) (l ++ tl)
             = flat_map (hot_action stock) tl).
  { induction l as [|a l IH]; intros tl Hl; [reflexivity|].
    simpl. rewrite IH by (intros row Hr; apply (Hl row); now right).
    destruct a; try reflexivity.
    exfalso. apply (Hl r). now left. }
  unfold fetches.
  repeat (rewrite Hlog;
          [|intros row Hr;
            pose proof (fetches_print stock stock_data today [] row) as Hp;
            unfold fetches in Hp;
            apply (@in_nil _ (APrint row)); apply Hp;
            repeat (apply in_or_app; (left; exact Hr) || right)]).
  reflexivity.
Qed.

Lemma hot_logs (stock : string) (acts : list action) :
  Forall is_log acts -> flat_map (hot_action stock) acts = [].
Proof.
  induction 1 as [|a l (lvl & o & ->) _ IH]; [reflexivity|exact IH].
Qed.

Lemma get_stock_data_keeps (stock : string) (i : nat) (fetched : res DataFrame)
  (self : Watchlist) :
  keeps (flat_map (hot_action stock)
                  (snd (get_stock_data W stock i fetched self)))
        self (snd (fst (get_stock_data W stock i fetched self))).
Proof.
  assert (Hrej : (forall stock_data s,
                     fetched = Ok stock_data -> signals stock_data = Ok s ->
                     passes_screen s <> Ok true) ->
                 keeps (flat_map (hot_action stock)
                                 (snd (get_stock_data W stock i fetched self)))
                       self (snd (fst (get_stock_data W stock i fetched self)))).
  { intros H.
    destruct (get_stock_data_rejected W stock i fetched self H) as [-> Hlog].
    rewrite (hot_logs _ _ Hlog). apply keeps_refl. }
  destruct fetched as [stock_data|e]; [|apply Hrej; intros ? ? [=]].
  destruct (signals stock_data) as [s|e] eqn:Hs;
    [|apply Hrej; intros ? ? [= <-]; congruence].
  destruct (passes_screen s) as [[|]|e] eqn:Hp;
    try (apply Hrej; intros ? ? [= <-]; congruence).
  clear Hrej.
  rewrite (get_stock_data_passed W stock i stock_data s self Hs Hp).
  destruct (signals_Ok_inv _ _ Hs) as (today & _ & H49 & _).
  rewrite (enrich_eq W stock stock_data s today self H49).
  destruct (final_screen W stock today);
    [|cbn [fst snd]; rewrite hot_fetches; apply keeps_refl].
  destruct (NP.py_round (equity_vol s)) as [shown|e];
    [|cbn [fst snd]; rewrite hot_fetches; apply keeps_refl].
  cbv zeta.
  destruct (py_gt (row_vol (printed_row W stock stock_data s today shown)) 100)
    as [hot_vol|e] eqn:Hgt; cbn [fst snd]; rewrite hot_fetches;
    cbn [flat_map hot_action]; rewrite Hgt.
  - destruct hot_vol; cbn [andb app].
    + destruct (mem stock (sizzlers self)) eqn:Hm; cbn [negb].
      * apply mem_In in Hm. repeat split; cbn [counted sizzlers]; auto.
        -- apply incl_refl.
        -- intros x [<-|[]]. exact Hm.
      * assert (Hn : ~ In stock (sizzlers self)).
        { intros Hin. apply mem_In in Hin. congruence. }
        repeat split; cbn [sizzling sizzlers].
        -- intros Hnd. apply NoDup_app; repeat split; auto.
           ++ repeat constructor. intros [].
           ++ intros x Hx [<-|[]]. contradiction.
        -- apply incl_appl, incl_refl.
        -- intros x [<-|[]]. apply in_or_app. right. now left.
    + repeat split; cbn [counted sizzlers]; auto using incl_refl.
      intros x [].
  - repeat split; cbn [counted sizzlers]; auto using incl_refl.
    intros x [].
Qed.

Lemma hot_run_task_events (i : nat) (stock : string) (acts : list action)
  (a : action) :
  (forall row, a <> APrint row) ->
  hot (map (ETask i stock) acts ++ [ETask i stock a])
  = flat_map (hot_action stock) acts.
Proof.
  intros Ha. rewrite hot_app. unfold hot at 2. cbn [flat_map hot_event].
  assert (E : hot_action stock a = []).
  { destruct a; try reflexivity. exfalso. now apply (Ha r). }
  rewrite E, !app_nil_r. unfold hot.
  induction acts as [|b acts IH]; [reflexivity|].
  cbn [map flat_map hot_event]. now rewrite IH.
Qed.

Lemma run_task_keeps (i : nat) (stock : string) (self : Watchlist) :
  keeps (hot (snd (run_task W i stock self))) self
        (snd (fst (run_task W i stock self))).
Proof.
  unfold run_task.
  pose proof (get_stock_data_keeps stock i (history W stock i) self) as H.
  destruct (get_stock_data W stock i (history W stock i) self)
    as [[r self'] acts].
  cbn [fst snd] in *.
  rewrite hot_run_task_events; [exact H|].
  intros row. destruct r; discriminate.
Qed.

Lemma stragglers_keeps (i : nat) (order : list string) (self : Watchlist) :
  keeps (hot (snd (stragglers W i order self))) self
        (fst (stragglers W i order self)).
Proof.
  revert self. induction order as [|stock rest IH]; intros self.
  - apply keeps_refl.
  - cbn [stragglers].
    pose proof (run_task_keeps i stock self) as H1.
    destruct (run_task W i stock self) as [[r self'] t].
    specialize (IH self').
    destruct (stragglers W i rest self') as [self'' t'].
    cbn [fst snd] in *. rewrite hot_app. eapply keeps_trans; eassumption.
Qed.

Lemma gather_keeps (i : nat) (order : list string) (late : nat)
  (self : Watchlist) :
  keeps (hot (snd (gather W i order late self))) self
        (snd (fst (gather W i order late self))).
Proof.
  revert self. induction order as [|stock rest IH]; intros self.
  - apply keeps_refl.
  - cbn [gather].
    pose proof (run_task_keeps i stock self) as H1.
    destruct (run_task W i stock self) as [[[[]|e] self'] t].
    + specialize (IH self').
      destruct (gather W i rest late self') as [[r' self''] t'].
      cbn [fst snd] in *. rewrite hot_app. eapply keeps_trans; eassumption.
    + pose proof (stragglers_keeps i (firstn late rest) self') as H2.
      destruct (stragglers W i (firstn late rest) self') as [self'' t'].
      cbn [fst snd] in *. rewrite hot_app. eapply keeps_trans; eassumption.
Qed.

Lemma hot_starts (i : nat) (l : list string) :
  hot (map (fun stock => ETask i stock (AHistory i)) l) = [].
Proof. induction l as [|x l IH]; [reflexivity|exact IH]. Qed.

Lemma batch_keeps (sch : Scheduler) (i : nat) (self : Watchlist) :
  keeps (hot (snd (batch W sch i self))) self
        (snd (fst (batch W sch i self))).
Proof.
  unfold batch, bind, emit.
  pose proof (gather_keeps i
                (completion_order (List.length (stocks W)) (picks sch i)
                                  (stocks W))
                (lag sch i) self) as H.
  destruct (gather W i _ (lag sch i) self) as [[r self'] t].
  cbn [fst snd] in *.
  rewrite !hot_app, hot_starts. exact H.
Qed.

Lemma for_each_keeps (sch : Scheduler) (windows : list nat) (self : Watchlist) :
  keeps (hot (snd (for_each W sch windows self))) self
        (snd (fst (for_each W sch windows self))).
Proof.
  revert self. induction windows as [|i rest IH]; intros self.
  - apply keeps_refl.
  - cbn [for_each]. unfold bind.
    pose proof (batch_keeps sch i self) as H1.
    destruct (batch W sch i self) as [[[[]|e] self'] t].
    + specialize (IH self').
      destruct (for_each W sch rest self') as [[r' self''] t'].
      cbn [fst snd] in *. rewrite hot_app. eapply keeps_trans; eassumption.
    + exact H1.
Qed.

Lemma run_keeps (sch : Scheduler) :
  keeps (hot (snd (run W sch))) {| stocks_in_play := 0; sizzlers := [] |}
        (snd (fst (run W sch))).
Proof.
  unfold run, main, bind, emit, get_self.
  pose proof (for_each_keeps sch (seq 50 10)
                             {| stocks_in_play := 0; sizzlers := [] |}) as H.
  destruct (for_each W sch (seq 50 10) _) as [[[[]|e] self'] t];
    cbn [fst snd] in *.
  - rewrite !hot_app. cbn [hot flat_map hot_event app] in *.
    now rewrite !app_nil_r.
  - exact H.
Qed.

(** C8: at the end of every run the sizzlers hold no symbol twice, and each
    symbol for which a row was printed with a volatility above 100 occurs in
    them exactly once, in however many batches it passed. *)
Theorem sizzlers_hold_hot_symbols_once (sch : Scheduler) :
  NoDup (sizzlers (snd (fst (run W sch)))) /\
  forall i stock row,
    In (ETask i stock (APrint row)) (snd (run W sch)) ->
    py_gt (row_vol row) 100 = Ok true ->
    count_occ string_dec (sizzlers (snd (fst (run W sch)))) stock = 1%nat.
Proof.
  destruct (run_keeps sch) as (Hnd & _ & Hhot).
  specialize (Hnd (NoDup_nil _)).
  split; [exact Hnd|].
  intros i stock row Hin Hgt.
  apply (proj1 (NoDup_count_occ' string_dec _) Hnd).
  apply Hhot. unfold hot. apply in_flat_map.
  exists (ETask i stock (APrint row)). split; [exact Hin|].
  cbn [hot_event hot_action]. rewrite Hgt. now left.
Qed.

End Sizzlers.

(** ** Batches *)

Section Batches.

Context {libm : Libm}.
Variable W : World.

Lemma remove_nth_perm {A : Type} (l : list A) (k : nat) (x : A) :
  nth_error l k = Some x -> Permutation (x :: remove_nth k l) l.
Proof.
  revert k. induction l as [|a l IH]; intros [|k] H; simpl in *; try discriminate.
  - injection H as ->. reflexivity.
  - rewrite perm_swap. constructor. now apply IH.
Qed.

(** Whatever the scheduler picks, every pending task completes once. *)
Lemma completion_order_perm {A : Type} (choice : list nat) (pending : list A) :
  Permutation (completion_order (List.length pending) choice pending) pending.
Proof.
  remember (List.length pending) as fuel eqn:Hfuel.
  revert choice pending Hfuel.
  induction fuel as [|fuel IH]; intros choice pending Hfuel.
  - destruct pending; [constructor|discriminate].
  - cbn [completion_order].
    set (k := Nat.modulo (hd O choice) (List.length pending)).
    assert (Hk : (k < List.length pending)%nat).
    { unfold k. apply Nat.mod_upper_bound. lia. }
    destruct (nth_error pending k) as [t|] eqn:E;
      [|apply nth_error_None in E; lia].
    pose proof (remove_nth_perm pending k t E) as Hp.
    rewrite <- Hp at 2. constructor.
    apply IH.
    apply Permutation_length in Hp. simpl in Hp. lia.
Qed.

Lemma run_task_trace (i : nat) (stock : string) (self : Watchlist) :
  Forall (of_window i) (snd (run_task W i stock self)) /\
  (fst (fst (run_task W i stock self)) = Ok tt ->
   In (ETask i stock AReturn) (snd (run_task W i stock self))).
Proof.
  unfold run_task.
  destruct (get_stock_data W stock i (history W stock i) self)
    as [[r self'] acts].
  cbn [fst snd]. split.
  - apply Forall_app. split.
    + apply Forall_forall. intros ev Hev. apply in_map_iff in Hev.
      destruct Hev as (a & <- & _). right. now exists stock, a.
    + constructor; [|constructor]. right. now eexists; eexists.
  - intros ->. apply in_or_app. right. now left.
Qed.

Lemma stragglers_trace (i : nat) (order : list string) (self : Watchlist) :
  Forall (of_window i) (snd (stragglers W i order self)).
Proof.
  revert self. induction order as [|stock rest IH]; intros self; [constructor|].
  cbn [stragglers].
  destruct (run_task_trace i stock self) as [H1 _].
  destruct (run_task W i stock self) as [[r self'] t].
  specialize (IH self').
  destruct (stragglers W i rest self') as [self'' t'].
  cbn [fst snd] in *. apply Forall_app. now split.
Qed.

Lemma gather_trace (i : nat) (order : list string) (late : nat)
  (self : Watchlist) :
  Forall (of_window i) (snd (gather W i order late self)) /\
  (fst (fst (gather W i order late self)) = Ok tt ->
   forall stock, In stock order ->
                 In (ETask i stock AReturn) (snd (gather W i order late self))).
Proof.
  revert self. induction order as [|stock rest IH]; intros self.
  - split; [constructor|]. intros _ stock [].
  - cbn [gather].
    destruct (run_task_trace i stock self) as [H1 H2].
    destruct (run_task W i stock self) as [[[[]|e] self'] t].
    + destruct (IH self') as [H3 H4].
      destruct (gather W i rest late self') as [[r' self''] t'].
      cbn [fst snd] in *. split; [apply Forall_app; now split|].
      intros Hr x [<-|Hx]; apply in_or_app; [left; now apply H2|right; auto].
    + pose proof (stragglers_trace i (firstn late rest) self') as H3.
      destruct (stragglers W i (firstn late rest) self') as [self'' t'].
      cbn [fst snd] in *. split; [apply Forall_app; now split|discriminate].
Qed.

Lemma batch_trace (sch : Scheduler) (i : nat) (self : Watchlist) :
  Forall (of_window i) (snd (batch W sch i self)) /\
  (fst (fst (batch W sch i self)) = Ok tt ->
   forall stock, In stock (stocks W) ->
                 In (ETask i stock AReturn) (snd (batch W sch i self))).
Proof.
  unfold batch, bind, emit.
  destruct (gather_trace i
              (completion_order (List.length (stocks W)) (picks sch i)
                                (stocks W))
              (lag sch i) self) as [H1 H2].
  destruct (gather W i _ (lag sch i) self) as [[r self'] t].
  cbn [fst snd] in *. split.
  - constructor; [now left|]. apply Forall_app. split.
    + apply Forall_forall. intros ev Hev. apply in_map_iff in Hev.
      destruct Hev as (stock & <- & _). right. now eexists; eexists.
    + exact H1.
  - intros Hr stock Hin. cbn [app]. right. apply in_or_app. right.
    apply H2; [exact Hr|].
    apply Permutation_in with (l := stocks W); [|exact Hin].
    symmetry. apply completion_order_perm.
Qed.

Lemma split_app {A : Type} (t0 t1 pre post : list A) (x : A) :
  t0 ++ t1 = pre ++ x :: post ->
  (exists post0, t0 = pre ++ x :: post0 /\ post = post0 ++ t1) \/
  (exists pre1, pre = t0 ++ pre1 /\ t1 = pre1 ++ x :: post).
Proof.
  revert pre. induction t0 as [|a t0 IH]; intros pre H.
  - right. now exists pre.
  - destruct pre as [|b pre]; simpl in H; injection H as -> H.
    + left. now exists t0.
    + destruct (IH pre H) as [(post0 & -> & ->)|(pre1 & -> & ->)].
      * left. now exists post0.
      * right. now exists pre1.
Qed.

Lemma of_window_task (i j : nat) (stock : string) (a : action) :
  of_window i (ETask j stock a) -> j = i.
Proof. intros [H|(s & b & H)]; [discriminate|congruence]. Qed.

(** Along the trace of successive batches the windows never go back, and a
    window is entered only when every task of the earlier ones has
    returned. *)
Lemma for_each_trace (sch : Scheduler) (windows : list nat) :
  StronglySorted lt windows ->
  forall self pre post j stock a,
    snd (for_each W sch windows self) = pre ++ ETask j stock a :: post ->
    In j windows /\
    (forall i stock' a', In (ETask i stock' a') pre -> (i <= j)%nat) /\
    (forall i stock' a', In (ETask i stock' a') post ->
                         (j <= i)%nat /\ In i windows) /\
    (forall i stock', In i windows -> (i < j)%nat -> In stock' (stocks W) ->
                      In (ETask i stock' AReturn) pre).
Proof.
  induction 1 as [|i0 rest Hsorted IH Hmin]; intros self pre post j stock a Ht.
  - destruct pre; discriminate.
  - rewrite Forall_forall in Hmin.
    cbn [for_each] in Ht. unfold bind in Ht.
    destruct (batch_trace sch i0 self) as [Hwin Hret].
    rewrite Forall_forall in Hwin.
    assert (Hhere : forall post0,
               snd (batch W sch i0 self) = pre ++ ETask j stock a :: post0 ->
               j = i0 /\
               (forall i stock' a', In (ETask i stock' a') pre -> i = i0) /\
               (forall i stock' a', In (ETask i stock' a') post0 -> i = i0)).
    { intros post0 E. rewrite E in Hwin. repeat split.
      - apply (of_window_task i0 j stock a). apply Hwin. apply in_elt.
      - intros i s' a' Hin. apply (of_window_task i0 i s' a').
        apply Hwin. apply in_or_app. now left.
      - intros i s' a' Hin. apply (of_window_task i0 i s' a').
        apply Hwin. apply in_or_app. right. now right. }
    destruct (batch W sch i0 self) as [[[[]|e] self'] t0]; cbn [fst snd] in *.
    + specialize (IH self').
      destruct (for_each W sch rest self') as [[r' self''] t1].
      cbn [fst snd] in *.
      destruct (split_app t0 t1 pre post _ Ht)
        as [(post0 & E0 & ->)|(pre1 & -> & E1)].
      * destruct (Hhere post0 E0) as (-> & Hpre & Hpost0).
        split; [now left|]. split; [|split].
        -- intros i s' a' Hin. rewrite (Hpre _ _ _ Hin). lia.
        -- intros i s' a' Hin. apply in_app_or in Hin. destruct Hin as [Hin|Hin].
           ++ rewrite (Hpost0 _ _ _ Hin). split; [lia|now left].
           ++ destruct (in_split _ _ Hin) as (l1 & l2 & E).
              destruct (IH l1 l2 i s' a' E) as (Hi & _).
              split; [|now right]. apply Nat.lt_le_incl. now apply Hmin.
        -- intros i s' [<-|Hi] Hlt Hs; [lia|].
           specialize (Hmin i Hi). lia.
      * destruct (IH pre1 post j stock a E1) as (Hj & Hpre & Hpost & Hres).
        split; [now right|]. split; [|split].
        -- intros i s' a' Hin. apply in_app_or in Hin. destruct Hin as [Hin|Hin].
           ++ assert (i = i0) as ->.
              { apply (of_window_task i0 i s' a'). now apply Hwin. }
              apply Nat.lt_le_incl. now apply Hmin.
           ++ eapply Hpre; eassumption.
        -- intros i s' a' Hin. destruct (Hpost i s' a' Hin). split; [|right]; auto.
        -- intros i s' [<-|Hi] Hlt Hs; apply in_or_app.
           ++ left. now apply Hret.
           ++ right. now apply Hres.
    + destruct (Hhere post Ht) as (-> & Hpre & Hpost0).
      split; [now left|]. split; [|split].
      * intros i s' a' Hin. rewrite (Hpre _ _ _ Hin). lia.
      * intros i s' a' Hin. rewrite (Hpost0 _ _ _ Hin). split; [lia|now left].
      * intros i s' [<-|Hi] Hlt Hs; [lia|].
        specialize (Hmin i Hi). lia.
Qed.

Lemma windows_sorted (start len : nat) :
  StronglySorted lt (seq start len).
Proof.
  revert start. induction len as [|len IH]; intros start; [constructor|].
  cbn [seq]. constructor; [apply IH|].
  apply Forall_forall. intros x Hx. apply in_seq in Hx. lia.
Qed.

(** C9: in the trace of every run, once any evaluation of window size j has
    begun, no evaluation of an earlier window size does anything more (its
    requests, its printed row and its resolution all lie before), and every
    symbol's evaluation for every earlier window size has returned. *)
Theorem batches_are_not_pipelined (sch : Scheduler) (pre post : list event)
  (j : nat) (stock : string) (a : action) :
  snd (run W sch) = pre ++ ETask j stock a :: post ->
  (50 <= j < 60)%nat /\
  (forall i stock' a', In (ETask i stock' a') pre -> (i <= j)%nat) /\
  (forall i stock' a', In (ETask i stock' a') post -> (j <= i)%nat) /\
  (forall i stock', (50 <= i < j)%nat -> In stock' (stocks W) ->
                    In (ETask i stock' AReturn) pre).
Proof.
  unfold run, main, bind, emit, get_self.
  pose proof (for_each_trace sch (seq 50 10) (windows_sorted 50 10)
                             {| stocks_in_play := 0; sizzlers := [] |}) as H.
  destruct (for_each W sch (seq 50 10) _) as [[r self'] t].
  cbn [fst snd] in H.
  assert (Hmain : forall tail,
             (forall s' b, ~ In (ETask j s' b) tail) ->
             (forall i s' b, In (ETask i s' b) tail -> False) ->
             [EHeader] ++ t ++ tail = pre ++ ETask j stock a :: post ->
             (50 <= j < 60)%nat /\
             (forall i stock' a', In (ETask i stock' a') pre -> (i <= j)%nat) /\
             (forall i stock' a', In (ETask i stock' a') post -> (j <= i)%nat) /\
             (forall i stock', (50 <= i < j)%nat -> In stock' (stocks W) ->
                               In (ETask i stock' AReturn) pre)).
  { intros tail _ Htail E.
    destruct pre as [|ev pre]; [discriminate|].
    cbn [app] in E. injection E as <- E.
    destruct (split_app t tail pre post _ E)
      as [(post0 & E0 & ->)|(pre1 & -> & E1)].
    - destruct (H pre post0 j stock a E0) as (Hj & Hpre & Hpost & Hres).
      apply in_seq in Hj. split; [lia|]. split; [|split].
      + intros i s' a' [Hin|Hin]; [discriminate|]. eapply Hpre; eassumption.
      + intros i s' a' Hin. apply in_app_or in Hin. destruct Hin as [Hin|Hin].
        * now destruct (Hpost i s' a' Hin).
        * destruct (Htail _ _ _ Hin).
      + intros i s' Hi Hs. right. apply Hres; [apply in_seq; lia|lia|exact Hs].
    - exfalso. apply (Htail j stock a). rewrite E1. apply in_elt. }
  destruct r as [[]|e]; cbn [fst snd]; intros E.
  - apply (Hmain [ESummary (stocks_in_play self') (List.length (sizzlers self'))]).
    + intros s' b [Hc|[]]. discriminate.
    + intros i s' b [Hc|[]]. discriminate.
    + exact E.
  - apply (Hmain []).
    + intros s' b [].
    + intros i s' b [].
    + rewrite <- E. cbn [app]. now rewrite app_nil_r.
Qed.

(** A task that fails in a batch where the others return or fail alike
    makes [gather] fail, whatever the order of completion. *)
Lemma gather_raises (i : nat) (e : exn) (order : list string) (late : nat)
  (culprit : string) (self : Watchlist) :
  In culprit order ->
  (forall self', fst (fst (run_task W i culprit self')) = Raise e) ->
  (forall stock self', In stock order ->
                       fst (fst (run_task W i stock self')) = Ok tt \/
                       fst (fst (run_task W i stock self')) = Raise e) ->
  fst (fst (gather W i order late self)) = Raise e.
Proof.
  intros Hin Hbad Hall. revert self.
  induction order as [|stock rest IH]; intros self; [destruct Hin|].
  cbn [gather].
  pose proof (Hall stock self (or_introl eq_refl)) as Hstock.
  pose proof (Hbad self) as Hself.
  destruct (String.eqb_spec stock culprit) as [->|Hne].
  - destruct (run_task W i culprit self) as [[r self'] t]. cbn [fst] in Hself.
    subst r. now destruct (stragglers W i (firstn late rest) self').
  - destruct Hin as [->|Hin]; [congruence|].
    destruct (run_task W i stock self) as [[r self'] t]. cbn [fst] in Hstock.
    destruct Hstock as [-> | ->].
    + specialize (IH Hin (fun s s' H => Hall s s' (or_intror H)) self').
      now destruct (gather W i rest late self') as [[r' self''] t'].
    + now destruct (stragglers W i (firstn late rest) self').
Qed.

(** When the first batch fails, the run ends with its exception and prints
    no summary. *)
Lemma failed_batch_ends_run (sch : Scheduler) (e : exn) :
  (forall self, fst (fst (batch W sch 50 self)) = Raise e) ->
  fst (fst (run W sch)) = Raise e /\
  forall n m, ~ In (ESummary n m) (snd (run W sch)).
Proof.
  intros Hbatch.
  specialize (Hbatch {| stocks_in_play := 0; sizzlers := [] |}).
  destruct (batch_trace sch 50 {| stocks_in_play := 0; sizzlers := [] |})
    as [Hwin _].
  destruct (batch W sch 50 {| stocks_in_play := 0; sizzlers := [] |})
    as [[r self'] t] eqn:Eb.
  cbn [fst snd] in *. subst r.
  assert (Ef : for_each W sch (seq 50 10)
                        {| stocks_in_play := 0; sizzlers := [] |}
               = (Raise e, self', t)).
  { cbn [seq for_each]. unfold bind at 1. now rewrite Eb. }
  unfold run, main, bind, emit, get_self. rewrite Ef.
  cbn [fst snd app]. split; [reflexivity|].
  intros n m [Hc|Hin]; [discriminate|].
  rewrite Forall_forall in Hwin.
  destruct (Hwin _ Hin) as [Hc|(s & a & Hc)]; discriminate.
Qed.

End Batches.

(** ** Runs *)

Lemma sizzlers_hold_hot_symbols_once_witness :
  count_occ string_dec
            (sizzlers (snd (fst (@run libm12 hot_world fifo)))) "AAA" = 1%nat.
Proof.
  destruct (@sizzlers_hold_hot_symbols_once libm12 hot_world fifo) as [_ Hhot].
  apply (Hhot 51%nat "AAA" hot_row).
  - apply nth_error_In with (n := 19%nat). vm_compute. reflexivity.
  - vm_compute. reflexivity.
Defined.

Lemma batches_are_not_pipelined_witness :
  In (ETask 50 "AAA" AReturn)
     (firstn 5 (snd (@run libm12 one_symbol fifo))).
Proof.
  destruct (@batches_are_not_pipelined libm12 one_symbol fifo
              (firstn 5 (snd (@run libm12 one_symbol fifo)))
              (skipn 6 (snd (@run libm12 one_symbol fifo)))
              51%nat "AAA" (AHistory 51))
    as (_ & _ & _ & Hreturned).
  - vm_compute. reflexivity.
  - apply (Hreturned 50%nat "AAA"); [lia|now left].
Defined.

(** C1 (the defect): "AAA" is green after a session without prices, so its
    gap is NaN and [round(gap)] raises ValueError, which neither handler of
    [get_stock_data] catches.  The exception ends the batch and the run:
    "BBB" is never evaluated and no summary is printed. *)
Theorem missing_session_aborts_the_run :
  @run libm12 faulty_world fifo
  = (Raise ValueError, fresh,
     [EHeader; EBanner 50;
      ETask 50 "AAA" (AHistory 50); ETask 50 "BBB" (AHistory 50);
      ETask 50 "AAA" (ARaise ValueError)]).
Proof. vm_compute. reflexivity. Qed.

(** The same with a previous high recorded as zero: the gap is infinite and
    [round(gap)] raises OverflowError. *)
Lemma infinite_gap_escapes :
  @get_stock_data libm12 faulty_world "AAA" 50 (Ok bars_zero_high) fresh
  = (Raise OverflowError, fresh, []).
Proof. vm_compute. reflexivity. Qed.

Lemma missing_session_raises (self : Watchlist) :
  fst (fst (@run_task libm12 faulty_world 50 "AAA" self)) = Raise ValueError.
Proof.
  unfold run_task.
  change (history faulty_world "AAA" 50) with (Ok bars_missing_session).
  destruct (signals bars_missing_session) as [s|e] eqn:Hs;
    [|vm_compute in Hs; discriminate].
  rewrite (@get_stock_data_screened libm12 faulty_world "AAA" 50
             bars_missing_session s self Hs).
  vm_compute in Hs. injection Hs as <-. reflexivity.
Qed.

(** In whatever order the two requests complete, the run fails and no
    summary is printed. *)
Lemma missing_session_aborts_under_every_schedule (sch : Scheduler) :
  fst (fst (@run libm12 faulty_world sch)) = Raise ValueError /\
  forall n m, ~ In (ESummary n m) (snd (@run libm12 faulty_world sch)).
Proof.
  apply failed_batch_ends_run. intros self.
  unfold batch, bind, emit.
  pose proof (@gather_raises libm12 faulty_world 50 ValueError
                (completion_order (List.length (stocks faulty_world))
                                  (picks sch 50) (stocks faulty_world))
                (lag sch 50) "AAA" self) as H.
  destruct (gather faulty_world 50 _ (lag sch 50) self) as [[r self'] t].
  cbn [fst snd] in *. apply H.
  - apply Permutation_in with (l := stocks faulty_world);
      [symmetry; apply completion_order_perm|now left].
  - intros self0. apply missing_session_raises.
  - intros stock self0 Hin.
    apply Permutation_in with (l' := stocks faulty_world) in Hin;
      [|apply completion_order_perm].
    destruct Hin as [<-|[<-|[]]].
    + right. apply missing_session_raises.
    + left. unfold run_task.
      destruct (get_stock_data faulty_world "BBB" 50
                               (history faulty_world "BBB" 50) self0)
        as [[r0 s0] acts] eqn:E.
      cbn [fst]. apply (f_equal (fun x => fst (fst x))) in E.
      cbn [fst] in E. rewrite <- E. vm_compute. reflexivity.
Qed.

(** * Further properties *)

(** ** The thresholds of the initial screen *)

Section Thresholds.

Local Open Scope Q_scope.

Lemma floor_bounds (q : Q) :
  inject_Z (Qfloor q) <= q /\ q < inject_Z (Qfloor q) + 1.
Proof.
  split; [apply Qfloor_le|].
  pose proof (Qlt_floor q) as H. rewrite inject_Z_plus in H. exact H.
Qed.

(** Rounding half to even reaches an even integer [n] exactly from
    [n - 1/2] on. *)
Lemma round_half_even_ge_even (q : Q) (n : Z) :
  Z.even n = true ->
  (n <= round_half_even q)%Z <-> inject_Z n - (1 # 2) <= q.
Proof.
  intros Heven. unfold round_half_even.
  destruct (floor_bounds q) as [Hlo Hhi].
  set (f := Qfloor q) in *.
  assert (Hint : forall a b : Z, inject_Z a < inject_Z b + 1 -> (a <= b)%Z).
  { intros a b H. change 1 with (inject_Z 1) in H.
    rewrite <- inject_Z_plus in H. rewrite <- Zlt_Qlt in H. lia. }
  destruct (q - inject_Z f ?= 1 # 2) eqn:E.
  - apply Qeq_alt in E.
    destruct (Z.even f) eqn:Ef; split; intros H.
    + rewrite Zle_Qle in H. lra.
    + assert (Hle : (n <= f + 1)%Z).
      { apply Hint. rewrite inject_Z_plus.
        change (inject_Z 1) with 1. lra. }
      assert (n <> f + 1)%Z.
      { intros ->. rewrite Z.even_add, Ef in Heven. discriminate. }
      lia.
    + rewrite Zle_Qle, inject_Z_plus in H.
      change (inject_Z 1) with 1 in H. lra.
    + apply Hint. rewrite inject_Z_plus.
        change (inject_Z 1) with 1. lra.
  - apply Qlt_alt in E. split; intros H.
    + rewrite Zle_Qle in H. lra.
    + apply Hint. lra.
  - apply Qgt_alt in E. split; intros H.
    + rewrite Zle_Qle, inject_Z_plus in H.
      change (inject_Z 1) with 1 in H. lra.
    + apply Hint. rewrite inject_Z_plus.
        change (inject_Z 1) with 1. lra.
Qed.

(** Because [round] takes ties to the even neighbour, [round(gap) >= 2]
    holds from a gap of 1.5 on and [round(vol_ratio) > 3] from a ratio of
    3.5 on: for finite values the screen of line 143 passes exactly when the
    day is green, the gap is at least 1.5, the equity volume at least
    250000 and the volume ratio at least 3.5. *)
Theorem screen_thresholds (s : Signals) (g r : Q) :
  gap s = Fin g ->
  vol_ratio s = Fin r ->
  (passes_screen s = Ok true <->
   green_initial_day s = true /\
   3 # 2 <= g /\
   NP.geb (equity_vol s) (of_int 250000) = true /\
   7 # 2 <= r).
Proof.
  intros Hg Hr. unfold passes_screen. rewrite Hg, Hr.
  cbn [NP.py_round res_bind].
  pose proof (round_half_even_ge_even g 2 eq_refl) as H2.
  pose proof (round_half_even_ge_even r 4 eq_refl) as H4.
  assert (E2 : inject_Z 2 - (1 # 2) == 3 # 2) by reflexivity.
  assert (E4 : inject_Z 4 - (1 # 2) == 7 # 2) by reflexivity.
  rewrite E2 in H2. rewrite E4 in H4.
  destruct (green_initial_day s); [|split; [discriminate|intros [[=] _]]].
  destruct (Z.geb (round_half_even g) 2) eqn:Eg.
  - apply Z.geb_le in Eg. apply H2 in Eg.
    destruct (NP.geb (equity_vol s) (of_int 250000));
      [|split; [discriminate|intros (_ & _ & [=] & _)]].
    destruct (Z.gtb (round_half_even r) 3) eqn:Er.
    + apply Z.gtb_lt in Er. assert (Er' : (4 <= round_half_even r)%Z) by lia.
      apply H4 in Er'. tauto.
    + split; [discriminate|]. intros (_ & _ & _ & Hr4).
      apply H4 in Hr4. exfalso.
      rewrite Z.gtb_ltb in Er. apply Z.ltb_ge in Er. lia.
  - split; [discriminate|]. intros (_ & Hg2 & _).
    apply H2 in Hg2. apply Z.geb_le in Hg2. congruence.
Qed.

End Thresholds.

Lemma screen_thresholds_witness :
  passes_screen (signals_at Scenario.bars_pass (Scenario.breakout 400000)
                            (Scenario.bar 0 10 10 10 10 100000))
  = Ok true.
Proof.
  apply (proj2 (screen_thresholds
                  (signals_at Scenario.bars_pass (Scenario.breakout 400000)
                              (Scenario.bar 0 10 10 10 10 100000))
                  2 4 eq_refl eq_refl)).
  repeat split; try reflexivity; vm_compute; discriminate.
Defined.

(** ** What an evaluation requests and what can leave it *)

Section EvaluationExtras.

Context {libm : Libm}.
Variable W : World.

(** On any Series of floats [calculate_volatility] returns a float and
    writes nothing to the log: no step of lines 97-103 raises, so the
    handler that answers "No data" is never entered. *)
Theorem calculate_volatility_is_float (closing_prices : list float64)
  (stock : string) :
  exists vol, calculate_volatility closing_prices stock = (PyFloat vol, []).
Proof.
  unfold calculate_volatility.
  destruct (volatility_total closing_prices) as [vol ->]. now exists vol.
Qed.

Lemma requests_app (l l' : list action) :
  requests (l ++ l') = requests l ++ requests l'.
Proof. apply flat_map_app. Qed.

Lemma requests_evidence (date : Timestamp) (stock : string) :
  requests (snd (get_evidence_of_selling W date stock)) = session_request date.
Proof.
  unfold get_evidence_of_selling, strptime_day, session_request.
  destruct (ts_tz date); [|reflexivity].
  destruct (res_bind _ selling_verdict); reflexivity.
Qed.

Lemma requests_fetches (stock : string) (stock_data : DataFrame) (today : Bar)
  (tail : list action) :
  requests (fetches W stock stock_data today tail)
  = [MarketCapPage; ShortFloatPage; SectorPage; PricePage]
    ++ session_request (Date today) ++ requests tail.
Proof.
  unfold fetches. rewrite !requests_app, requests_evidence.
  assert (E1 : requests (snd (get_market_cap W stock)) = [MarketCapPage]).
  { unfold get_market_cap. now destruct (market_cap_page W stock). }
  assert (E2 : requests (snd (get_short_float W stock)) = [ShortFloatPage]).
  { unfold get_short_float. now destruct (short_float_page W stock). }
  assert (E3 : requests (snd (get_sector W stock)) = [SectorPage]).
  { unfold get_sector. now destruct (sector_page W stock) as [[? ?]|]. }
  assert (E4 : requests (snd (get_current_price W stock)) = [PricePage]).
  { unfold get_current_price. now destruct (price_page W stock). }
  assert (E5 : requests (snd (calculate_volatility
                                (firstn 49 (column Close stock_data)) stock))
               = []).
  { unfold calculate_volatility.
    now destruct (volatility_total (firstn 49 (column Close stock_data)))
      as [v ->]. }
  assert (E6 : requests (snd (closest_number (fst (get_current_price W stock))
                                             (High today) (Low today) stock))
               = []).
  { unfold closest_number.
    match goal with |- requests (snd (match ?r with _ => _ end)) = _ =>
      now destruct r end. }
  rewrite E1, E2, E3, E4, E5, E6. reflexivity.
Qed.

(** An evaluation that passes the initial screen makes its requests in one
    fixed order: market cap, short float, sector, price, and then the minute
    bars of the one session dated by bar 49 (none when that stamp carries no
    UTC offset, which line 77 cannot parse). *)
Theorem passing_evaluation_requests (stock : string) (i : nat)
  (stock_data : DataFrame) (s : Signals) (today : Bar) (self : Watchlist) :
  signals stock_data = Ok s ->
  passes_screen s = Ok true ->
  nth_error stock_data 49 = Some today ->
  requests (snd (get_stock_data W stock i (Ok stock_data) self))
  = [MarketCapPage; ShortFloatPage; SectorPage; PricePage]
    ++ session_request (Date today).
Proof.
  intros Hs Hp H49.
  rewrite (get_stock_data_passed W stock i stock_data s self Hs Hp).
  rewrite (enrich_eq W stock stock_data s today self H49).
  assert (E : forall tail, requests tail = [] ->
                requests (fetches W stock stock_data today tail)
                = [MarketCapPage; ShortFloatPage; SectorPage; PricePage]
                  ++ session_request (Date today)).
  { intros tail Ht. rewrite requests_fetches, Ht. now rewrite app_nil_r. }
  destruct (final_screen W stock today); [|now apply E].
  destruct (NP.py_round (equity_vol s)); [|now apply E].
  cbv zeta. destruct (py_gt _ 100); now apply E.
Qed.

(** A history of fewer than 50 bars (an empty one included) ends the
    evaluation quietly: the lookup of bar 49 raises KeyError, which is
    caught; nothing is requested or printed, the counters are untouched, and
    the log receives the two warnings of lines 135 and 160. *)
Theorem short_history_is_skipped (stock : string) (i : nat)
  (stock_data : DataFrame) (self : Watchlist) :
  (List.length stock_data < 50)%nat ->
  get_stock_data W stock i (Ok stock_data) self
  = (Ok tt, self,
     [ALog WARNING "get_stock_data"; ALog WARNING "get_stock_data"]).
Proof.
  intros Hlt. unfold get_stock_data, try_except, bind, lift, emit, ret.
  rewrite (signals_short _ Hlt).
  apply Nat.ltb_lt in Hlt. rewrite Hlt. reflexivity.
Qed.

(** [get_stock_data] never lets a KeyError or an IndexError out.  When the
    history request itself fails with another exception, that exception
    leaves unchanged; when it succeeds, the only exceptions that can leave
    are the ValueError and OverflowError of [round] applied to a NaN or
    infinite gap, equity volume or volume ratio; the comparison
    [vol > 100] never fails. *)
Theorem only_rounding_faults_escape (stock : string) (i : nat)
  (fetched : res DataFrame) (self : Watchlist) (e : exn) :
  fst (fst (get_stock_data W stock i fetched self)) = Raise e ->
  e <> KeyError /\ e <> IndexError /\
  (forall e', fetched = Raise e' -> e' = e) /\
  (forall stock_data, fetched = Ok stock_data ->
                      e = ValueError \/ e = OverflowError).
Proof.
  assert (R : forall x z, NP.py_round x = Raise z ->
                          z = ValueError \/ z = OverflowError).
  { intros [q| | |] z; simpl; intros [=]; subst; auto. }
  assert (Hok : forall stock_data,
             fetched = Ok stock_data ->
             fst (fst (get_stock_data W stock i fetched self)) = Raise e ->
             e = ValueError \/ e = OverflowError).
  { intros stock_data -> Hr.
    destruct (signals stock_data) as [s|e0] eqn:Hs.
    - destruct (passes_screen s) as [[|]|e0] eqn:Hp.
      + rewrite (get_stock_data_passed W stock i stock_data s self Hs Hp) in Hr.
        destruct (signals_Ok_inv _ _ Hs) as (today & _ & H49 & _).
        rewrite (enrich_eq W stock stock_data s today self H49) in Hr.
        destruct (final_screen W stock today); [|discriminate].
        destruct (NP.py_round (equity_vol s)) as [shown|z] eqn:Er;
          [|injection Hr as <-; now apply (R _ _ Er)].
        cbv zeta in Hr. unfold printed_row in Hr. cbn [row_vol] in Hr.
        unfold calculate_volatility in Hr.
        destruct (volatility_total (firstn 49 (column Close stock_data)))
          as [v Hv].
        rewrite Hv in Hr. discriminate.
      + rewrite (get_stock_data_screened W stock i stock_data s self Hs), Hp
          in Hr. discriminate.
      + rewrite (get_stock_data_screened W stock i stock_data s self Hs), Hp
          in Hr. injection Hr as <-.
        destruct (passes_screen_raises _ _ Hp); auto.
    - destruct (Nat.lt_ge_cases (List.length stock_data) 50) as [Hlt|Hge].
      + exfalso. revert Hr.
        unfold get_stock_data, try_except, bind, lift, emit, ret.
        rewrite (signals_short _ Hlt).
        apply Nat.ltb_lt in Hlt. rewrite Hlt. discriminate.
      + destruct (long_enough _ Hge) as (t & y & H49 & H48).
        rewrite (signals_Ok _ _ _ H49 H48) in Hs. discriminate. }
  intros Hr. destruct fetched as [stock_data|e0].
  - destruct (Hok stock_data eq_refl Hr) as [-> | ->];
      repeat split; try discriminate; auto.
  - revert Hr. unfold get_stock_data, try_except, bind, lift, emit, ret.
    destruct e0; cbn; intros [= <-]; repeat split; try discriminate;
      try (intros ? [= <-]; reflexivity).
Qed.

(** [get_evidence_of_selling] answers "Yes", "No" or "No data" and nothing
    else; it answers "No data" exactly when it logs an error; and it asks
    for the minute bars of one session, from the day of its stamp to the
    next, or for nothing when the stamp does not parse. *)
Theorem evidence_of_selling_outcomes (start_date : Timestamp) (stock : string) :
  (fst (get_evidence_of_selling W start_date stock) = "Yes" \/
   fst (get_evidence_of_selling W start_date stock) = "No" \/
   fst (get_evidence_of_selling W start_date stock) = "No data") /\
  (fst (get_evidence_of_selling W start_date stock) = "No data" <->
   In (ALog ERROR "get_evidence_of_selling")
      (snd (get_evidence_of_selling W start_date stock))) /\
  requests (snd (get_evidence_of_selling W start_date stock))
  = session_request start_date.
Proof.
  split; [|split; [|apply requests_evidence]].
  - unfold get_evidence_of_selling.
    destruct (strptime_day start_date) as [day|e]; [|auto].
    destruct (download W stock day (day + 1)) as [df|e]; [|auto].
    cbn [res_bind]. unfold selling_verdict.
    destruct (PD.values0 (map mOpen _)) as [o|e]; [|auto]. cbn [res_bind].
    destruct (PD.values0 (map mClose _)) as [c|e]; [|auto]. cbn [res_bind].
    destruct (NP.geb o c); auto.
  - unfold get_evidence_of_selling.
    destruct (strptime_day start_date) as [day|e];
      [|split; [now left|reflexivity]].
    destruct (download W stock day (day + 1)) as [df|e];
      [|split; [intros _; right; now left|reflexivity]].
    cbn [res_bind]. unfold selling_verdict.
    destruct (PD.values0 (map mOpen _)) as [o|e];
      [|split; [intros _; right; now left|reflexivity]].
    cbn [res_bind].
    destruct (PD.values0 (map mClose _)) as [c|e];
      [|split; [intros _; right; now left|reflexivity]].
    cbn [res_bind fst snd].
    destruct (NP.geb o c); split; try discriminate;
      intros [H|[]]; discriminate.
Qed.

End EvaluationExtras.

Lemma passing_evaluation_requests_witness :
  requests (snd (@get_stock_data libm12 hot_world "AAA" 50 (Ok bars_pass) fresh))
  = [MarketCapPage; ShortFloatPage; SectorPage; PricePage; MinuteBars 49 50].
Proof.
  apply (@passing_evaluation_requests libm12 hot_world "AAA" 50 bars_pass
           (signals_at bars_pass (breakout 400000) (bar 0 10 10 10 10 100000))
           (breakout 400000) fresh); reflexivity.
Defined.

Lemma short_history_is_skipped_witness :
  @get_stock_data libm12 hot_world "AAA" 50 (Ok []) fresh
  = (Ok tt, fresh,
     [ALog WARNING "get_stock_data"; ALog WARNING "get_stock_data"]).
Proof.
  apply (@short_history_is_skipped libm12 hot_world "AAA" 50 [] fresh).
  simpl. lia.
Defined.

Lemma only_rounding_faults_escape_witness :
  ValueError <> KeyError /\ ValueError <> IndexError /\
  (forall e', Ok bars_missing_session = Raise e' -> e' = ValueError) /\
  (forall stock_data, Ok bars_missing_session = Ok stock_data ->
                      ValueError = ValueError \/ ValueError = OverflowError).
Proof.
  apply (@only_rounding_faults_escape libm12 faulty_world "AAA" 50
           (Ok bars_missing_session) fresh ValueError).
  vm_compute. reflexivity.
Defined.

(** ** The momentum flag and the middle of the range *)

Section Midpoint.

Local Open Scope Q_scope.



End Midpoint.


(** ** Volatility of a flat series *)

Section FlatSeries.

Context {libm : Libm}.

Local Open Scope Q_scope.

Lemma Qred_zero (q : Q) : q == 0 -> Qred q = 0.
Proof. intros H. now rewrite (Qred_complete _ _ H). Qed.

Lemma sum_repeat (a : Q) (m : nat) (b : Q) :
  exists q, fold_left NP.add (repeat (Fin a) m) (Fin b) = Fin q /\
            q == b + inject_Z (Z.of_nat m) * a.
Proof.
  revert b. induction m as [|m IH]; intros b.
  - exists b. split; [reflexivity|]. simpl. ring.
  - cbn [repeat fold_left NP.add]. unfold fin.
    destruct (IH (Qred (b + a))) as (q & E & Hq).
    exists q. split; [exact E|].
    rewrite Hq, Qred_correct, Nat2Z.inj_succ, <- Z.add_1_r, inject_Z_plus.
    change (inject_Z 1) with 1. ring.
Qed.

(** The mean of [m >= 1] copies of a value in lowest terms is that value. *)
Lemma mean_repeat (a : Q) (m : nat) :
  (0 < m)%nat -> NP.mean (repeat (Fin (Qred a)) m) = Fin (Qred a).
Proof.
  intros Hm. unfold NP.mean, NP.sum. rewrite repeat_length.
  destruct (sum_repeat (Qred a) m 0) as (q & -> & Hq).
  unfold NP.div, of_int.
  assert (Hne : ~ inject_Z (Z.of_nat m) == 0).
  { change 0 with (inject_Z 0). rewrite inject_Z_injective. lia. }
  destruct (Qeq_bool (inject_Z (Z.of_nat m)) 0) eqn:E;
    [apply Qeq_bool_iff in E; contradiction|].
  unfold fin. f_equal.
  apply Qred_complete. rewrite Hq, Qred_correct. field. exact Hne.
Qed.

Lemma res_map_const {A B : Type} (f : A -> res B) (l : list A) (b : B) :
  (forall a, In a l -> f a = Ok b) ->
  res_map f l = Ok (repeat b (List.length l)).
Proof.
  induction l as [|a l IH]; intros H; [reflexivity|].
  cbn [res_map List.length repeat]. rewrite (H a (or_introl eq_refl)).
  cbn [res_bind]. rewrite IH by (intros; apply H; now right). reflexivity.
Qed.

(** On a series of two or more equal positive closes every log return is
    the same, every deviation from their mean is zero, and the volatility is
    exactly 0, whatever the logarithm and square root in use. *)
Theorem flat_series_has_zero_volatility (c : Q) (n : nat) (stock : string) :
  0 < c ->
  (2 <= n)%nat ->
  calculate_volatility (repeat (Fin c) n) stock = (PyFloat (Fin 0), []).
Proof.
  intros Hc Hn. unfold calculate_volatility, volatility.
  rewrite repeat_length.
  set (r := Qred (ln_fin 1)).
  assert (Hratio : NP.log (NP.div (Fin c) (Fin c)) = Fin r).
  { unfold NP.div.
    destruct (Qeq_bool c 0) eqn:E; [apply Qeq_bool_iff in E; lra|].
    unfold fin. rewrite (Qred_complete (c / c) 1) by (field; lra).
    reflexivity. }
  rewrite (res_map_const _ _ (Fin r)).
  - cbn [res_bind]. rewrite length_seq.
    unfold r. rewrite mean_repeat by lia. fold r.
    assert (Hdev : NP.mul (NP.sub (Fin r) (Fin r)) (NP.sub (Fin r) (Fin r))
                   = Fin (Qred 0)).
    { unfold NP.sub, NP.opp, NP.add, fin.
      rewrite (Qred_zero (r + Qred (- r))) by (rewrite Qred_correct; ring).
      reflexivity. }
    rewrite map_repeat, Hdev, mean_repeat by lia.
    change (NP.sqrt (Fin (Qred 0))) with (Fin 0).
    unfold NP.sqrt, of_int. change (inject_Z 252 ?= 0) with Gt. cbv iota.
    unfold NP.mul at 2, fin.
    rewrite (Qred_zero (0 * Qred (sqrt_fin (inject_Z 252)))) by ring.
    reflexivity.
  - intros i Hi. apply in_seq in Hi. unfold PD.getitem.
    rewrite !nth_error_repeat by lia. cbn [res_bind]. now rewrite Hratio.
Qed.

End FlatSeries.

Lemma flat_series_has_zero_volatility_witness :
  @calculate_volatility libm12 (repeat (Fin 10) 49) "AAA" = (PyFloat (Fin 0), []).
Proof.
  apply (@flat_series_has_zero_volatility libm12 10 49 "AAA");
    [reflexivity|lia].
Defined.

(** ** The fields read from the quote pages *)

Section Scraping.

Import Scrape.

Lemma lstrip_split (l : list Ascii.ascii) :
  exists ws, l = ws ++ lstrip l /\ Forall (fun c => isspace c = true) ws.
Proof.
  induction l as [|c l (ws & E & Hws)]; [now exists []|].
  cbn [lstrip]. destruct (isspace c) eqn:Ec.
  - exists (c :: ws). split; [cbn; now f_equal|now constructor].
  - now exists [].
Qed.

Lemma lstrip_head (l : list Ascii.ascii) :
  match lstrip l with
  | [] => True
  | c :: _ => isspace c = false
  end.
Proof.
  induction l as [|c l IH]; [exact I|].
  cbn [lstrip]. destruct (isspace c) eqn:Ec; [exact IH|exact Ec].
Qed.

(** [strip] removes white space at both ends and nothing else. *)
Lemma strip_spec (text : string) :
  trimmed (strip text) /\
  exists before after,
    list_ascii_of_string text
    = before ++ list_ascii_of_string (strip text) ++ after /\
    Forall (fun c => isspace c = true) before /\
    Forall (fun c => isspace c = true) after.
Proof.
  unfold strip, trimmed. rewrite list_ascii_of_string_of_list_ascii.
  set (l := list_ascii_of_string text).
  destruct (lstrip_split l) as (before & Hl & Hbefore).
  set (m := lstrip l) in *.
  destruct (lstrip_split (rev m)) as (ws & Hm & Hws).
  set (k := lstrip (rev m)) in *.
  assert (Em : m = rev k ++ rev ws).
  { rewrite <- (rev_involutive m), Hm, rev_app_distr. reflexivity. }
  rewrite rev_involutive. repeat split.
  - pose proof (lstrip_head l) as Hhead. fold m in Hhead.
    rewrite Em in Hhead. destruct (rev k) as [|c r]; [exact I|exact Hhead].
  - apply lstrip_head.
  - exists before, (rev ws). repeat split.
    + now rewrite <- Em.
    + exact Hbefore.
    + apply Forall_rev. exact Hws.
Qed.

Lemma slice_from_short (k : nat) (text : string) :
  (String.length text <= k)%nat -> slice_from k text = "".
Proof.
  intros H. unfold slice_from.
  rewrite skipn_all2; [reflexivity|].
  assert (E : List.length (list_ascii_of_string text) = String.length text).
  { clear. induction text as [|c text IH]; [reflexivity|]. cbn. now rewrite IH. }
  now rewrite E.
Qed.

Lemma trimmed_no_data : trimmed "No data".
Proof. split; reflexivity. Qed.

(** Reading item [k] of the elements found and dropping a label of [skip]
    characters, as lines 28-29 and 40-41 do. *)
Lemma read_item (k skip : nat) (found : res (list string)) :
  (forall items text,
     found = Ok items -> nth_error items k = Some text ->
     (items <- found ;; x <- index items k ;;
      Ok (strip (slice_from skip x)))%res
     = Ok (strip (slice_from skip text))) /\
  (forall items,
     found = Ok items -> (List.length items <= k)%nat ->
     (items <- found ;; x <- index items k ;;
      Ok (strip (slice_from skip x)))%res
     = Raise IndexError) /\
  (forall e,
     found = Raise e ->
     (items <- found ;; x <- index items k ;;
      Ok (strip (slice_from skip x)))%res
     = Raise e) /\
  (forall v,
     (items <- found ;; x <- index items k ;;
      Ok (strip (slice_from skip x)))%res = Ok v ->
     trimmed v).
Proof.
  split; [|split; [|split]].
  - intros items text -> Hk. cbn [res_bind]. unfold index. now rewrite Hk.
  - intros items -> Hlen. cbn [res_bind]. unfold index.
    assert (E : nth_error items k = None) by (apply nth_error_None; lia).
    now rewrite E.
  - now intros e ->.
  - intros v. destruct found as [items|e]; [|discriminate]. cbn [res_bind].
    unfold index. destruct (nth_error items k) as [text|]; [|discriminate].
    cbn [res_bind]. intros [= <-]. apply strip_spec.
Qed.

Variables kv_items primary_spans : string -> res (list string).
Variable W : World.

(** [get_market_cap] on a quote page: with fewer than four [kv__item]
    elements, or a failed request, it answers "No data" and logs an error;
    otherwise it answers the fourth item's text without its first 11
    characters and without white space at either end, logging nothing.  An
    item of at most 11 characters gives the empty string, not "No data".
    Whatever the page, the answer carries no white space at its ends. *)
Theorem get_market_cap_reads_fourth_item (stock : string) :
  (forall items text,
     kv_items stock = Ok items -> nth_error items 3 = Some text ->
     get_market_cap (reading kv_items primary_spans W) stock
     = (strip (slice_from 11 text), [ARequest MarketCapPage]) /\
     ((String.length text <= 11)%nat ->
      fst (get_market_cap (reading kv_items primary_spans W) stock) = "")) /\
  (forall items,
     kv_items stock = Ok items -> (List.length items <= 3)%nat ->
     get_market_cap (reading kv_items primary_spans W) stock
     = ("No data", [ARequest MarketCapPage; ALog ERROR "get_market_cap"])) /\
  (forall e,
     kv_items stock = Raise e ->
     get_market_cap (reading kv_items primary_spans W) stock
     = ("No data", [ARequest MarketCapPage; ALog ERROR "get_market_cap"])) /\
  trimmed (fst (get_market_cap (reading kv_items primary_spans W) stock)).
Proof.
  unfold get_market_cap, reading, market_cap_of. cbn [market_cap_page].
  destruct (read_item 3 11 (kv_items stock)) as (Hread & Hfew & Hfail & Htrim).
  split; [|split; [|split]].
  - intros items text Hk H3. rewrite (Hread items text Hk H3).
    split; [reflexivity|]. intros Hshort. cbn [fst].
    now rewrite slice_from_short.
  - intros items Hk Hlen. now rewrite (Hfew items Hk Hlen).
  - intros e Hk. now rewrite (Hfail e Hk).
  - destruct (res_bind (kv_items stock) _) as [v|e] eqn:E;
      [now apply Htrim|apply trimmed_no_data].
Qed.

(** [get_short_float] reads the fifteenth [kv__item] in the same way, after
    a label of 19 characters: fewer than fifteen items, or a failed request,
    give "No data" with an error logged; an item of at most 19 characters
    gives the empty string; the answer never carries white space at its
    ends. *)
Theorem get_short_float_reads_fifteenth_item (stock : string) :
  (forall items text,
     kv_items stock = Ok items -> nth_error items 14 = Some text ->
     get_short_float (reading kv_items primary_spans W) stock
     = (strip (slice_from 19 text), [ARequest ShortFloatPage]) /\
     ((String.length text <= 19)%nat ->
      fst (get_short_float (reading kv_items primary_spans W) stock) = "")) /\
  (forall items,
     kv_items stock = Ok items -> (List.length items <= 14)%nat ->
     get_short_float (reading kv_items primary_spans W) stock
     = ("No data", [ARequest ShortFloatPage; ALog ERROR "get_short_float"])) /\
  (forall e,
     kv_items stock = Raise e ->
     get_short_float (reading kv_items primary_spans W) stock
     = ("No data", [ARequest ShortFloatPage; ALog ERROR "get_short_float"])) /\
  trimmed (fst (get_short_float (reading kv_items primary_spans W) stock)).
Proof.
  unfold get_short_float, reading, short_float_of. cbn [short_float_page].
  destruct (read_item 14 19 (kv_items stock)) as (Hread & Hfew & Hfail & Htrim).
  split; [|split; [|split]].
  - intros items text Hk H14. rewrite (Hread items text Hk H14).
    split; [reflexivity|]. intros Hshort. cbn [fst].
    now rewrite slice_from_short.
  - intros items Hk Hlen. now rewrite (Hfew items Hk Hlen).
  - intros e Hk. now rewrite (Hfail e Hk).
  - destruct (res_bind (kv_items stock) _) as [v|e] eqn:E;
      [now apply Htrim|apply trimmed_no_data].
Qed.

(** [get_sector] compares the seventh and the eighth [span.primary] of the
    profile page and answers the shorter text, the seventh when they are
    equally long, so the answer is as long as the shorter of the two; with
    fewer than eight such spans, or a failed request, it answers "N/A" and
    logs an error. *)
Theorem get_sector_takes_the_shorter (stock : string) :
  (forall spans industry sector,
     primary_spans stock = Ok spans ->
     nth_error spans 6 = Some industry ->
     nth_error spans 7 = Some sector ->
     get_sector (reading kv_items primary_spans W) stock
     = (if Nat.leb (String.length industry) (String.length sector)
        then industry else sector,
        [ARequest SectorPage]) /\
     String.length (fst (get_sector (reading kv_items primary_spans W) stock))
     = Nat.min (String.length industry) (String.length sector)) /\
  (forall spans,
     primary_spans stock = Ok spans -> (List.length spans <= 7)%nat ->
     get_sector (reading kv_items primary_spans W) stock
     = ("N/A", [ARequest SectorPage; ALog ERROR "get_sector"])) /\
  (forall e,
     primary_spans stock = Raise e ->
     get_sector (reading kv_items primary_spans W) stock
     = ("N/A", [ARequest SectorPage; ALog ERROR "get_sector"])).
Proof.
  unfold get_sector, reading, industry_and_sector_of. cbn [sector_page].
  split; [|split].
  - intros spans industry sector -> H6 H7. cbn [res_bind]. unfold index.
    rewrite H6, H7. cbn [res_bind fst]. split; [reflexivity|].
    destruct (Nat.leb_spec (String.length industry) (String.length sector));
      lia.
  - intros spans -> Hlen. cbn [res_bind]. unfold index.
    destruct (nth_error spans 6) as [industry|]; [|reflexivity].
    cbn [res_bind].
    assert (E : nth_error spans 7 = None) by (apply nth_error_None; lia).
    now rewrite E.
  - now intros e ->.
Qed.

End Scraping.

Lemma get_market_cap_reads_fourth_item_witness :
  get_market_cap
    (Scrape.reading
       (fun _ => Ok ["Open"; "Day Range"; "52 Week Range";
                     "Market Cap $1.23B "])
       (fun _ => Raise RequestException) one_symbol)
    "AAA"
  = ("$1.23B", [ARequest MarketCapPage]).
Proof.
  destruct (get_market_cap_reads_fourth_item
              (fun _ => Ok ["Open"; "Day Range"; "52 Week Range";
                            "Market Cap $1.23B "])
              (fun _ => Raise RequestException) one_symbol "AAA")
    as [Hread _].
  destruct (Hread ["Open"; "Day Range"; "52 Week Range"; "Market Cap $1.23B "]
                  "Market Cap $1.23B " eq_refl eq_refl) as [E _].
  exact E.
Defined.

Lemma get_short_float_reads_fifteenth_item_witness :
  get_short_float
    (Scrape.reading
       (fun _ => Ok ["a"; "b"; "c"; "d"; "e"; "f"; "g"; "h"; "i"; "j"; "k"; "l"; "m"; "n"])
       (fun _ => Raise RequestException) one_symbol)
    "AAA"
  = ("No data", [ARequest ShortFloatPage; ALog ERROR "get_short_float"]).
Proof.
  destruct (get_short_float_reads_fifteenth_item
              (fun _ => Ok ["a"; "b"; "c"; "d"; "e"; "f"; "g"; "h"; "i"; "j"; "k"; "l"; "m"; "n"])
              (fun _ => Raise RequestException) one_symbol "AAA")
    as (_ & Hfew & _).
  apply (Hfew ["a"; "b"; "c"; "d"; "e"; "f"; "g"; "h"; "i"; "j"; "k"; "l"; "m"; "n"] eq_refl).
  cbn. lia.
Defined.

Lemma get_sector_takes_the_shorter_witness :
  fst (get_sector
         (Scrape.reading
            (fun _ => Raise RequestException)
            (fun _ => Ok ["a"; "b"; "c"; "d"; "e"; "f";
                          "Software"; "Technology"])
            one_symbol)
         "AAA")
  = "Software".
Proof.
  destruct (get_sector_takes_the_shorter
              (fun _ => Raise RequestException)
              (fun _ => Ok ["a"; "b"; "c"; "d"; "e"; "f";
                            "Software"; "Technology"])
              one_symbol "AAA") as [Hread _].
  destruct (Hread ["a"; "b"; "c"; "d"; "e"; "f"; "Software"; "Technology"]
                  "Software" "Technology" eq_refl eq_refl eq_refl) as [E _].
  now rewrite E.
Defined.

(** ** Invariants of a run *)

Section RunInvariant.

Context {libm : Libm}.
Variable W : World.

(** A relation between the object before a stretch of the run, the events
    of the stretch and the object after it, that holds of every stretch of
    [main] once it holds of the single steps. *)
Variable R : Watchlist -> list event -> Watchlist -> Prop.
Variable windows : list nat.

Hypothesis R_refl : forall self, R self [] self.
Hypothesis R_trans :
  forall a t b t' c, R a t b -> R b t' c -> R a (t ++ t') c.
Hypothesis R_banner : forall self i, In i windows -> R self [EBanner i] self.
Hypothesis R_start :
  forall self i stock,
    In i windows -> In stock (stocks W) ->
    R self [ETask i stock (AHistory i)] self.
Hypothesis R_task :
  forall self i stock,
    In i windows -> In stock (stocks W) ->
    R self (snd (run_task W i stock self)) (snd (fst (run_task W i stock self))).

Lemma R_stragglers (i : nat) (order : list string) (self : Watchlist) :
  In i windows -> incl order (stocks W) ->
  R self (snd (stragglers W i order self)) (fst (stragglers W i order self)).
Proof.
  intros Hi. revert self.
  induction order as [|stock rest IH]; intros self Hincl; [apply R_refl|].
  cbn [stragglers].
  pose proof (R_task self i stock Hi (Hincl _ (or_introl eq_refl))) as H1.
  destruct (run_task W i stock self) as [[r self'] t].
  specialize (IH self' (fun x Hx => Hincl x (or_intror Hx))).
  destruct (stragglers W i rest self') as [self'' t'].
  cbn [fst snd] in *. eapply R_trans; eassumption.
Qed.

Lemma R_gather (i : nat) (order : list string) (late : nat) (self : Watchlist) :
  In i windows -> incl order (stocks W) ->
  R self (snd (gather W i order late self))
    (snd (fst (gather W i order late self))).
Proof.
  intros Hi. revert self.
  induction order as [|stock rest IH]; intros self Hincl; [apply R_refl|].
  cbn [gather].
  pose proof (R_task self i stock Hi (Hincl _ (or_introl eq_refl))) as H1.
  destruct (run_task W i stock self) as [[[[]|e] self'] t].
  - specialize (IH self' (fun x Hx => Hincl x (or_intror Hx))).
    destruct (gather W i rest late self') as [[r' self''] t'].
    cbn [fst snd] in *. eapply R_trans; eassumption.
  - assert (Hlate : incl (firstn late rest) (stocks W)).
    { intros x Hx. apply Hincl. right.
      rewrite <- (firstn_skipn late rest). apply in_or_app. now left. }
    pose proof (R_stragglers i (firstn late rest) self' Hi Hlate) as H2.
    destruct (stragglers W i (firstn late rest) self') as [self'' t'].
    cbn [fst snd] in *. eapply R_trans; eassumption.
Qed.

Lemma R_starts (i : nat) (l : list string) (self : Watchlist) :
  In i windows -> incl l (stocks W) ->
  R self (map (fun stock => ETask i stock (AHistory i)) l) self.
Proof.
  intros Hi. induction l as [|stock l IH]; intros Hincl; [apply R_refl|].
  cbn [map].
  change (ETask i stock (AHistory i)
            :: map (fun stock0 => ETask i stock0 (AHistory i)) l)
    with ([ETask i stock (AHistory i)]
            ++ map (fun stock0 => ETask i stock0 (AHistory i)) l).
  eapply R_trans.
  - apply R_start; [exact Hi|]. apply Hincl. now left.
  - apply IH. intros x Hx. apply Hincl. now right.
Qed.

Lemma R_batch (sch : Scheduler) (i : nat) (self : Watchlist) :
  In i windows ->
  R self (snd (batch W sch i self)) (snd (fst (batch W sch i self))).
Proof.
  intros Hi. unfold batch, bind, emit.
  assert (Hincl : incl (completion_order (List.length (stocks W))
                                         (picks sch i) (stocks W))
                       (stocks W)).
  { intros x Hx. eapply Permutation_in; [apply completion_order_perm|exact Hx]. }
  pose proof (R_gather i _ (lag sch i) self Hi Hincl) as H.
  destruct (gather W i _ (lag sch i) self) as [[r self'] t].
  cbn [fst snd] in *.
  eapply R_trans; [now apply R_banner|].
  eapply R_trans; [apply R_starts; [exact Hi|apply incl_refl]|exact H].
Qed.

Lemma R_for_each (sch : Scheduler) (ws : list nat) (self : Watchlist) :
  incl ws windows ->
  R self (snd (for_each W sch ws self)) (snd (fst (for_each W sch ws self))).
Proof.
  revert self. induction ws as [|i rest IH]; intros self Hincl;
    [apply R_refl|].
  cbn [for_each]. unfold bind.
  pose proof (R_batch sch i self (Hincl _ (or_introl eq_refl))) as H1.
  destruct (batch W sch i self) as [[[[]|e] self'] t].
  - specialize (IH self' (fun x Hx => Hincl x (or_intror Hx))).
    destruct (for_each W sch rest self') as [[r' self''] t'].
    cbn [fst snd] in *. eapply R_trans; eassumption.
  - exact H1.
Qed.

End RunInvariant.

Section RunShape.

Context {libm : Libm}.
Variable W : World.

(** [main] around its loop. *)
Lemma run_shape (sch : Scheduler) :
  exists r self t,
    for_each W sch (seq 50 10) {| stocks_in_play := 0; sizzlers := [] |}
    = (r, self, t) /\
    run W sch
    = match r with
      | Ok _ =>
          (Ok tt, self,
           EHeader :: t ++
           [ESummary (stocks_in_play self) (List.length (sizzlers self))])
      | Raise e => (Raise e, self, EHeader :: t)
      end.
Proof.
  unfold run, main, bind, emit, get_self.
  destruct (for_each W sch (seq 50 10) _) as [[r self] t].
  exists r, self, t. split; [reflexivity|].
  destruct r as [[]|e]; reflexivity.
Qed.

End RunShape.

(** ** Rows, counters and the summary *)

Section RunExtras.

Context {libm : Libm}.
Variable W : World.

Lemma prints_app (l l' : list action) : prints (l ++ l') = prints l ++ prints l'.
Proof. apply flat_map_app. Qed.

Lemma prints_fetches (stock : string) (stock_data : DataFrame) (today : Bar)
  (tail : list action) :
  prints (fetches W stock stock_data today tail) = prints tail.
Proof.
  unfold fetches. rewrite !prints_app.
  assert (E1 : prints (snd (get_market_cap W stock)) = []).
  { unfold get_market_cap. now destruct (market_cap_page W stock). }
  assert (E2 : prints (snd (get_short_float W stock)) = []).
  { unfold get_short_float. now destruct (short_float_page W stock). }
  assert (E3 : prints (snd (get_sector W stock)) = []).
  { unfold get_sector. now destruct (sector_page W stock) as [[? ?]|]. }
  assert (E4 : prints (snd (get_current_price W stock)) = []).
  { unfold get_current_price. now destruct (price_page W stock). }
  assert (E5 : prints (snd (get_evidence_of_selling W (Date today) stock)) = []).
  { unfold get_evidence_of_selling.
    destruct (strptime_day (Date today)); [|reflexivity].
    now destruct (res_bind _ selling_verdict). }
  assert (E6 : prints (snd (calculate_volatility
                              (firstn 49 (column Close stock_data)) stock))
               = []).
  { unfold calculate_volatility.
    now destruct (volatility_total (firstn 49 (column Close stock_data)))
      as [v ->]. }
  assert (E7 : prints (snd (closest_number (fst (get_current_price W stock))
                                           (High today) (Low today) stock))
               = []).
  { unfold closest_number.
    match goal with |- prints (snd (match ?r with _ => _ end)) = _ =>
      now destruct r end. }
  now rewrite E1, E2, E3, E4, E5, E6, E7.
Qed.

Lemma prints_logs (acts : list action) : Forall is_log acts -> prints acts = [].
Proof.
  induction 1 as [|a l (lvl & o & ->) _ IH]; [reflexivity|exact IH].
Qed.

Lemma shown_equity_vol (x : float64) (shown : Z) :
  NP.geb x (of_int 250000) = true -> NP.py_round x = Ok shown ->
  250000 <= shown.
Proof.
  destruct x as [q| | |]; try discriminate.
  intros Hge [= <-]. apply leb_Fin in Hge.
  apply (round_half_even_ge_even q 250000 eq_refl).
  assert (H : (inject_Z 250000 - (1 # 2) <= inject_Z 250000)%Q)
    by (vm_compute; discriminate).
  eapply Qle_trans; eassumption.
Qed.

(** What one evaluation leaves behind: nothing, or one row and a counter
    moved by one. *)
Lemma get_stock_data_outcome (stock : string) (i : nat)
  (fetched : res DataFrame) (self : Watchlist) :
  (snd (fst (get_stock_data W stock i fetched self)) = self /\
   prints (snd (get_stock_data W stock i fetched self)) = []) \/
  (exists row hot_vol,
     prints (snd (get_stock_data W stock i fetched self)) = [row] /\
     row_stock row = stock /\
     row_evidence row = "No" /\
     250000 <= row_equity_vol row /\
     (exists x, row_vol row = PyFloat x) /\
     py_gt (row_vol row) 100 = Ok hot_vol /\
     fst (fst (get_stock_data W stock i fetched self)) = Ok tt /\
     snd (fst (get_stock_data W stock i fetched self))
     = if hot_vol && negb (mem stock (sizzlers self))
       then sizzling stock self else counted self).
Proof.
  assert (Hrej : (forall stock_data s,
                     fetched = Ok stock_data -> signals stock_data = Ok s ->
                     passes_screen s <> Ok true) ->
                 snd (fst (get_stock_data W stock i fetched self)) = self /\
                 prints (snd (get_stock_data W stock i fetched self)) = []).
  { intros H.
    destruct (get_stock_data_rejected W stock i fetched self H) as [-> Hlog].
    split; [reflexivity|now apply prints_logs]. }
  destruct fetched as [stock_data|e]; [|left; apply Hrej; intros ? ? [=]].
  destruct (signals stock_data) as [s|e] eqn:Hs;
    [|left; apply Hrej; intros ? ? [= <-]; congruence].
  destruct (passes_screen s) as [[|]|e] eqn:Hp;
    try (left; apply Hrej; intros ? ? [= <-]; congruence).
  clear Hrej.
  rewrite (get_stock_data_passed W stock i stock_data s self Hs Hp).
  destruct (signals_Ok_inv _ _ Hs) as (today & _ & H49 & _).
  rewrite (enrich_eq W stock stock_data s today self H49).
  destruct (final_screen W stock today) eqn:Hfinal;
    [|left; cbn [fst snd]; now rewrite prints_fetches].
  destruct (NP.py_round (equity_vol s)) as [shown|e] eqn:Hshown;
    [|left; cbn [fst snd]; now rewrite prints_fetches].
  cbv zeta.
  assert (Hvol : exists x,
             row_vol (printed_row W stock stock_data s today shown) = PyFloat x).
  { unfold printed_row. cbn [row_vol]. unfold calculate_volatility.
    destruct (volatility_total (firstn 49 (column Close stock_data)))
      as [v ->]. now eexists. }
  destruct Hvol as [x Hx].
  assert (Hgt : py_gt (row_vol (printed_row W stock stock_data s today shown)) 100
                = Ok (NP.gtb x (of_int 100))) by now rewrite Hx.
  rewrite Hgt. right.
  exists (printed_row W stock stock_data s today shown), (NP.gtb x (of_int 100)).
  cbn [fst snd]. rewrite prints_fetches.
  apply passes_screen_true in Hp. destruct Hp as (_ & _ & Hliq & _).
  unfold final_screen in Hfinal. apply andb_prop in Hfinal.
  destruct Hfinal as [_ Hev]. apply String.eqb_eq in Hev.
  repeat split; try reflexivity; try assumption.
  - eapply shown_equity_vol; eassumption.
  - now exists x.
Qed.

Lemma printed_rows_app (t t' : list event) :
  printed_rows (t ++ t') = printed_rows t ++ printed_rows t'.
Proof. apply flat_map_app. Qed.

Lemma in_printed_rows (t : list event) (i : nat) (stock : string) (row : Row) :
  In (i, stock, row) (printed_rows t) <-> In (ETask i stock (APrint row)) t.
Proof.
  unfold printed_rows. rewrite in_flat_map. split.
  - intros (ev & Hev & Hin).
    destruct ev as [| |j s a|]; try contradiction.
    destruct a; try contradiction.
    destruct Hin as [[= <- <- <-]|[]]. exact Hev.
  - intros H. exists (ETask i stock (APrint row)). split; [exact H|now left].
Qed.

Lemma printed_rows_task (i : nat) (stock : string) (acts : list action)
  (a : action) :
  (forall row, a <> APrint row) ->
  printed_rows (map (ETask i stock) acts ++ [ETask i stock a])
  = map (fun row => (i, stock, row)) (prints acts).
Proof.
  intros Ha. rewrite printed_rows_app.
  assert (E : printed_rows [ETask i stock a] = []).
  { destruct a; try reflexivity. exfalso. now apply (Ha r). }
  rewrite E, app_nil_r.
  induction acts as [|b acts IH]; [reflexivity|].
  cbn [map]. change (ETask i stock b :: map (ETask i stock) acts)
    with ([ETask i stock b] ++ map (ETask i stock) acts).
  rewrite printed_rows_app, IH. now destruct b.
Qed.

(** The same for a task of the event loop. *)
Lemma run_task_outcome (i : nat) (stock : string) (self : Watchlist) :
  (snd (fst (run_task W i stock self)) = self /\
   printed_rows (snd (run_task W i stock self)) = []) \/
  (exists row hot_vol,
     printed_rows (snd (run_task W i stock self)) = [(i, stock, row)] /\
     row_stock row = stock /\
     row_evidence row = "No" /\
     250000 <= row_equity_vol row /\
     (exists x, row_vol row = PyFloat x) /\
     py_gt (row_vol row) 100 = Ok hot_vol /\
     fst (fst (run_task W i stock self)) = Ok tt /\
     snd (fst (run_task W i stock self))
     = if hot_vol && negb (mem stock (sizzlers self))
       then sizzling stock self else counted self).
Proof.
  unfold run_task.
  pose proof (get_stock_data_outcome stock i (history W stock i) self) as H.
  destruct (get_stock_data W stock i (history W stock i) self)
    as [[r self'] acts].
  cbn [fst snd] in *.
  rewrite printed_rows_task by (intros row; destruct r; discriminate).
  destruct H as [[-> ->]|(row & hot_vol & -> & H)]; [now left|].
  right. now exists row, hot_vol.
Qed.

End RunExtras.

Section RunTheorems.

Context {libm : Libm}.
Variable W : World.

Lemma window_range (i : nat) : In i (seq 50 10) <-> (50 <= i < 60)%nat.
Proof. rewrite in_seq. lia. Qed.

Lemma printed_rows_run (sch : Scheduler) :
  printed_rows (snd (run W sch))
  = printed_rows
      (snd (for_each W sch (seq 50 10) {| stocks_in_play := 0; sizzlers := [] |})).
Proof.
  destruct (run_shape W sch) as (r & self & t & Ef & Er). rewrite Ef, Er.
  destruct r as [[]|e]; cbn [snd];
    change (EHeader :: ?l) with ([EHeader] ++ l);
    rewrite ?printed_rows_app; cbn [printed_rows flat_map app];
    now rewrite ?app_nil_r.
Qed.

Lemma state_run (sch : Scheduler) :
  snd (fst (run W sch))
  = snd (fst (for_each W sch (seq 50 10)
                       {| stocks_in_play := 0; sizzlers := [] |})).
Proof.
  destruct (run_shape W sch) as (r & self & t & Ef & Er). rewrite Ef, Er.
  now destruct r as [[]|e].
Qed.

Lemma for_each_counts_rows (sch : Scheduler) (ws : list nat) (self : Watchlist) :
  stocks_in_play (snd (fst (for_each W sch ws self)))
  = stocks_in_play self
    + Z.of_nat (List.length (printed_rows (snd (for_each W sch ws self)))).
Proof.
  pose proof (R_for_each W
                (fun a t b => stocks_in_play b
                              = stocks_in_play a
                                + Z.of_nat (List.length (printed_rows t)))
                ws) as H.
  cbv beta in H.
  apply (H (fun self => eq_sym (Z.add_0_r _))).
  - intros a t b t' c -> ->. rewrite printed_rows_app, length_app. lia.
  - intros a i _. cbn. lia.
  - intros a i stock _ _. cbn. lia.
  - intros a i stock _ _.
    destruct (run_task_outcome W i stock a)
      as [[-> ->]|(row & hot_vol & -> & _ & _ & _ & _ & _ & _ & ->)].
    + cbn. lia.
    + destruct (hot_vol && negb (mem stock (sizzlers a))); cbn; lia.
  - apply incl_refl.
Qed.

(** At the end of every run, completed or not, [stocks_in_play] is the
    number of rows the run has printed. *)
Theorem stocks_in_play_counts_rows (sch : Scheduler) :
  stocks_in_play (snd (fst (run W sch)))
  = Z.of_nat (List.length (printed_rows (snd (run W sch)))).
Proof.
  rewrite printed_rows_run, state_run.
  now rewrite for_each_counts_rows.
Qed.

Lemma sizzlers_origin (sch : Scheduler) :
  (forall stock,
     In stock (sizzlers (snd (fst (run W sch)))) ->
     In stock (stocks W) /\
     exists i row,
       In (ETask i stock (APrint row)) (snd (run W sch)) /\ sizzles row) /\
  Z.of_nat (List.length (sizzlers (snd (fst (run W sch)))))
  <= stocks_in_play (snd (fst (run W sch))).
Proof.
  pose proof (R_for_each W
                (fun a t b =>
                   (forall x, In x (sizzlers b) ->
                              In x (sizzlers a) \/
                              (In x (stocks W) /\
                               exists i row, In (i, x, row) (printed_rows t) /\
                                             sizzles row)) /\
                   Z.of_nat (List.length (sizzlers b)) + stocks_in_play a
                   <= Z.of_nat (List.length (sizzlers a)) + stocks_in_play b)
                (seq 50 10)) as H.
  cbv beta in H.
  destruct (H (fun self => conj (fun x Hx => or_introl Hx) (Z.le_refl _)))
    with (sch := sch) (ws := seq 50 10)
         (self := {| stocks_in_play := 0; sizzlers := [] |})
    as [Hin Hlen].
  - intros a t b t' c [H1 L1] [H2 L2]. split; [|lia].
    intros x Hx. destruct (H2 x Hx) as [Hb|(Hs & i & row & Hr & Hhot)].
    + destruct (H1 x Hb) as [Ha|(Hs & i & row & Hr & Hhot)]; [now left|].
      right. split; [exact Hs|]. exists i, row. split; [|exact Hhot].
      rewrite printed_rows_app. apply in_or_app. now left.
    + right. split; [exact Hs|]. exists i, row. split; [|exact Hhot].
      rewrite printed_rows_app. apply in_or_app. now right.
  - intros self i _. split; [now left|lia].
  - intros self i stock _ _. split; [now left|lia].
  - intros self i stock _ Hstock.
    destruct (run_task_outcome W i stock self)
      as [[-> ->]|(row & hot_vol & -> & _ & _ & _ & _ & Hgt & _ & ->)].
    + split; [now left|lia].
    + destruct hot_vol; cbn [andb].
      * destruct (mem stock (sizzlers self)); cbn [negb].
        -- cbn [counted sizzlers stocks_in_play]. split; [now left|lia].
        -- cbn [sizzling sizzlers stocks_in_play]. split.
           ++ intros x Hx. apply in_app_or in Hx.
              destruct Hx as [Hx|[<-|[]]]; [now left|].
              right. split; [exact Hstock|]. exists i, row.
              split; [now left|exact Hgt].
           ++ rewrite length_app. cbn [List.length]. lia.
      * cbn [counted sizzlers stocks_in_play]. split; [now left|lia].
  - apply incl_refl.
  - rewrite state_run. split.
    + intros stock Hs. destruct (Hin stock Hs) as [[]|(Hu & i & row & Hr & Hhot)].
      split; [exact Hu|]. exists i, row. split; [|exact Hhot].
      apply in_printed_rows. now rewrite printed_rows_run.
    + cbn [sizzlers stocks_in_play List.length] in Hlen. lia.
Qed.

(** Every symbol among the sizzlers of a finished run belongs to the
    universe and had a row printed with a volatility above 100; and the
    sizzlers are never more numerous than the rows counted. *)
Theorem sizzlers_come_from_hot_rows (sch : Scheduler) :
  (forall stock,
     In stock (sizzlers (snd (fst (run W sch)))) ->
     In stock (stocks W) /\
     exists i row,
       In (ETask i stock (APrint row)) (snd (run W sch)) /\ sizzles row) /\
  Z.of_nat (List.length (sizzlers (snd (fst (run W sch)))))
  <= stocks_in_play (snd (fst (run W sch))).
Proof. exact (sizzlers_origin sch). Qed.

(** Every row a run prints belongs to a window size in 50..59 and a symbol
    of the universe, carries that symbol, shows "No" as evidence of selling,
    an equity volume of at least 250000 and a numeric volatility. *)
Theorem printed_rows_are_screened (sch : Scheduler) (i : nat) (stock : string)
  (row : Row) :
  In (ETask i stock (APrint row)) (snd (run W sch)) ->
  (50 <= i < 60)%nat /\
  In stock (stocks W) /\
  row_stock row = stock /\
  row_evidence row = "No" /\
  250000 <= row_equity_vol row /\
  exists x, row_vol row = PyFloat x.
Proof.
  intros Hin. apply in_printed_rows in Hin. rewrite printed_rows_run in Hin.
  pose proof (R_for_each W
                (fun _ t _ =>
                   forall i stock row,
                     In (i, stock, row) (printed_rows t) ->
                     (50 <= i < 60)%nat /\ In stock (stocks W) /\
                     row_stock row = stock /\ row_evidence row = "No" /\
                     250000 <= row_equity_vol row /\
                     exists x, row_vol row = PyFloat x)
                (seq 50 10)) as H.
  cbv beta in H. eapply H; try exact Hin.
  - intros _ ? ? ? [].
  - intros _ t _ t' _ H1 H2 j s r Hr. rewrite printed_rows_app in Hr.
    apply in_app_or in Hr. destruct Hr; eauto.
  - intros _ j _ ? ? ? [].
  - intros _ j s _ _ ? ? ? [].
  - intros self j s Hj Hs j' s' r Hr.
    destruct (run_task_outcome W j s self)
      as [[_ E]|(row' & hot_vol & E & H1 & H2 & H3 & H4 & _)];
      rewrite E in Hr; [destruct Hr|].
    destruct Hr as [[= <- <- <-]|[]].
    apply window_range in Hj. repeat split; try assumption; lia.
  - apply incl_refl.
Qed.

Lemma for_each_in_loop (sch : Scheduler) (self : Watchlist) :
  Forall (in_loop W) (snd (for_each W sch (seq 50 10) self)).
Proof.
  apply (R_for_each W (fun _ t _ => Forall (in_loop W) t) (seq 50 10)).
  - constructor.
  - intros _ t _ t' _ H1 H2. apply Forall_app. now split.
  - intros _ i Hi. constructor; [exact Hi|constructor].
  - intros _ i stock Hi Hs. constructor; [now split|constructor].
  - intros a i stock Hi Hs. unfold run_task.
    destruct (get_stock_data W stock i (history W stock i) a)
      as [[r self'] acts].
    cbn [snd]. apply Forall_app. split.
    + apply Forall_forall. intros ev Hev. apply in_map_iff in Hev.
      destruct Hev as (x & <- & _). now split.
    + constructor; [now split|constructor].
  - apply incl_refl.
Qed.

(** The header opens every run.  The summary is printed exactly when no
    exception has left the loop; it is then the last thing printed, once,
    and it shows the number of rows printed and the number of sizzlers. *)
Theorem summary_closes_completed_runs (sch : Scheduler) :
  exists t,
    Forall (in_loop W) t /\
    snd (run W sch)
    = EHeader :: t ++
      match fst (fst (run W sch)) with
      | Ok _ =>
          [ESummary (Z.of_nat (List.length (printed_rows t)))
                    (List.length (sizzlers (snd (fst (run W sch)))))]
      | Raise _ => []
      end.
Proof.
  destruct (run_shape W sch) as (r & self & t & Ef & Er).
  pose proof (for_each_in_loop sch {| stocks_in_play := 0; sizzlers := [] |})
    as Hloop.
  pose proof (for_each_counts_rows sch (seq 50 10)
                                   {| stocks_in_play := 0; sizzlers := [] |})
    as Hcount.
  rewrite Ef in Hloop, Hcount. cbn [fst snd stocks_in_play] in Hloop, Hcount.
  exists t. split; [exact Hloop|]. rewrite Er.
  destruct r as [[]|e]; cbn [fst snd].
  - now rewrite Hcount.
  - now rewrite app_nil_r.
Qed.

Lemma batch_starts (sch : Scheduler) (i : nat) (self : Watchlist)
  (stock : string) :
  In stock (stocks W) ->
  In (ETask i stock (AHistory i)) (snd (batch W sch i self)).
Proof.
  intros Hs. unfold batch, bind, emit.
  destruct (gather W i _ (lag sch i) self) as [[r self'] t].
  cbn [snd app]. right. apply in_or_app. left.
  apply in_map_iff. now exists stock.
Qed.

Lemma for_each_complete (sch : Scheduler) (ws : list nat) (self : Watchlist) :
  fst (fst (for_each W sch ws self)) = Ok tt ->
  forall i stock,
    In i ws -> In stock (stocks W) ->
    In (ETask i stock (AHistory i)) (snd (for_each W sch ws self)) /\
    In (ETask i stock AReturn) (snd (for_each W sch ws self)).
Proof.
  revert self. induction ws as [|i0 rest IH]; intros self Hok i stock Hi Hs;
    [destruct Hi|].
  cbn [for_each] in *. unfold bind in *.
  pose proof (batch_starts sch i0 self stock Hs) as Hstart.
  destruct (batch_trace W sch i0 self) as [_ Hret].
  destruct (batch W sch i0 self) as [[[[]|e] self'] t0];
    cbn [fst snd] in *; [|discriminate].
  specialize (IH self').
  destruct (for_each W sch rest self') as [[r' self''] t1].
  cbn [fst snd] in *.
  destruct Hi as [<-|Hi].
  - split; apply in_or_app; left; [exact Hstart|now apply Hret].
  - destruct (IH Hok i stock Hi Hs). split; apply in_or_app; now right.
Qed.

(** A run evaluates symbols of the universe for window sizes 50..59 and
    nothing else; and a run that completes has requested the history of
    every symbol for every one of these window sizes and seen every such
    evaluation return. *)
Theorem completed_run_covers_the_universe (sch : Scheduler) :
  (forall i stock a,
     In (ETask i stock a) (snd (run W sch)) ->
     (50 <= i < 60)%nat /\ In stock (stocks W)) /\
  (fst (fst (run W sch)) = Ok tt ->
   forall i stock,
     (50 <= i < 60)%nat -> In stock (stocks W) ->
     In (ETask i stock (AHistory i)) (snd (run W sch)) /\
     In (ETask i stock AReturn) (snd (run W sch))).
Proof.
  destruct (run_shape W sch) as (r & self & t & Ef & Er).
  pose proof (for_each_in_loop sch {| stocks_in_play := 0; sizzlers := [] |})
    as Hloop.
  pose proof (for_each_complete sch (seq 50 10)
                                {| stocks_in_play := 0; sizzlers := [] |})
    as Hall.
  rewrite Ef in Hloop, Hall. cbn [fst snd] in Hloop, Hall.
  rewrite Forall_forall in Hloop. rewrite Er. split.
  - intros i stock a Hin.
    assert (Ht : In (ETask i stock a) t).
    { destruct r as [[]|e]; cbn [snd] in Hin;
        destruct Hin as [Hc|Hin]; try discriminate; [|exact Hin].
      apply in_app_or in Hin. destruct Hin as [Hin|[Hc|[]]];
        [exact Hin|discriminate]. }
    destruct (Hloop _ Ht) as [Hi Hs]. apply window_range in Hi. now split.
  - destruct r as [[]|e]; cbn [fst snd]; [|discriminate].
    intros _ i stock Hi Hs. apply window_range in Hi.
    destruct (Hall eq_refl i stock Hi Hs) as [H1 H2].
    split; right; apply in_or_app; now left.
Qed.

End RunTheorems.

(** ** The order of completion *)

Section Schedules.

Context {libm : Libm}.
Variable W : World.

(** How an evaluation resolves and what it does are the same whatever the
    counters hold. *)
Lemma evaluation_ignores_counters (stock : string) (i : nat)
  (fetched : res DataFrame) (self self' : Watchlist) :
  fst (fst (get_stock_data W stock i fetched self))
  = fst (fst (get_stock_data W stock i fetched self')) /\
  snd (get_stock_data W stock i fetched self)
  = snd (get_stock_data W stock i fetched self').
Proof.
  destruct fetched as [stock_data|e].
  - destruct (signals stock_data) as [s|e] eqn:Hs.
    + destruct (passes_screen s) as [[|]|e] eqn:Hp.
      * rewrite !(get_stock_data_passed W stock i stock_data s _ Hs Hp).
        destruct (signals_Ok_inv _ _ Hs) as (today & _ & H49 & _).
        rewrite !(enrich_eq W stock stock_data s today _ H49).
        destruct (final_screen W stock today); [|now split].
        destruct (NP.py_round (equity_vol s)); [|now split].
        cbv zeta. destruct (py_gt _ 100); now split.
      * pose proof (get_stock_data_screened W stock i stock_data s self Hs) as E.
        pose proof (get_stock_data_screened W stock i stock_data s self' Hs) as E'.
        rewrite Hp in E, E'. rewrite E, E'. now split.
      * pose proof (get_stock_data_screened W stock i stock_data s self Hs) as E.
        pose proof (get_stock_data_screened W stock i stock_data s self' Hs) as E'.
        rewrite Hp in E, E'. rewrite E, E'. now split.
    + unfold get_stock_data, try_except, bind, lift, emit, ret. rewrite Hs.
      destruct (Nat.ltb (List.length stock_data) 50); destruct e; now split.
  - unfold get_stock_data, try_except, bind, lift, emit, ret.
    destruct e; now split.
Qed.

Lemma run_task_ignores_counters (i : nat) (stock : string)
  (self self' : Watchlist) :
  fst (fst (run_task W i stock self)) = fst (fst (run_task W i stock self')) /\
  snd (run_task W i stock self) = snd (run_task W i stock self').
Proof.
  unfold run_task.
  destruct (evaluation_ignores_counters stock i (history W stock i) self self')
    as [Hr Ht].
  destruct (get_stock_data W stock i (history W stock i) self)
    as [[r s] acts].
  destruct (get_stock_data W stock i (history W stock i) self')
    as [[r' s'] acts'].
  cbn [fst snd] in *. now subst.
Qed.

Lemma Permutation_flat_map {A B : Type} (f : A -> list B) (l l' : list A) :
  Permutation l l' -> Permutation (flat_map f l) (flat_map f l').
Proof.
  induction 1 as [|x l l' _ IH|x y l|l l' l'' _ IH1 _ IH2]; cbn [flat_map].
  - constructor.
  - now apply Permutation_app_head.
  - rewrite !app_assoc. apply Permutation_app_tail, Permutation_app_comm.
  - now transitivity (flat_map f l').
Qed.

(** [gather] returns when every task does; the rows printed are then those
    of the tasks, in the order of completion. *)
Lemma gather_returns (i : nat) (order : list string) (late : nat)
  (self : Watchlist) :
  (fst (fst (gather W i order late self)) = Ok tt <->
   forall stock, In stock order -> returns W i stock) /\
  (fst (fst (gather W i order late self)) = Ok tt ->
   printed_rows (snd (gather W i order late self))
   = flat_map (rows_of W i) order).
Proof.
  revert self. induction order as [|stock rest IH]; intros self.
  - cbn. split; [split; [intros _ ? []|reflexivity]|reflexivity].
  - cbn [gather].
    destruct (run_task_ignores_counters i stock self
                {| stocks_in_play := 0; sizzlers := [] |}) as [Hr Ht].
    destruct (run_task W i stock self) as [[r self'] t]. cbn [fst snd] in Hr, Ht.
    destruct r as [[]|e].
    + destruct (IH self') as [Hiff Hrows].
      destruct (gather W i rest late self') as [[r' self''] t'].
      cbn [fst snd] in *. split; [split|].
      * intros Hok x [<-|Hx]; [now symmetry|]. now apply Hiff.
      * intros Hall. apply Hiff. intros x Hx. apply Hall. now right.
      * intros Hok. rewrite printed_rows_app, (Hrows Hok).
        cbn [flat_map]. unfold rows_of at 2. now rewrite Ht.
    + destruct (stragglers W i (firstn late rest) self') as [self'' t'].
      cbn [fst snd]. split; [split|]; try discriminate.
      intros Hall. specialize (Hall stock (or_introl eq_refl)).
      unfold returns in Hall. congruence.
Qed.

Lemma batch_returns (sch : Scheduler) (i : nat) (self : Watchlist) :
  (fst (fst (batch W sch i self)) = Ok tt <->
   forall stock, In stock (stocks W) -> returns W i stock) /\
  (fst (fst (batch W sch i self)) = Ok tt ->
   Permutation (printed_rows (snd (batch W sch i self)))
               (flat_map (rows_of W i) (stocks W))).
Proof.
  unfold batch, bind, emit.
  pose proof (completion_order_perm (picks sch i) (stocks W)) as Hperm.
  destruct (gather_returns i
              (completion_order (List.length (stocks W)) (picks sch i)
                                (stocks W))
              (lag sch i) self) as [Hiff Hrows].
  destruct (gather W i _ (lag sch i) self) as [[r self'] t].
  cbn [fst snd] in *. split; [split|].
  - intros Hok x Hx. apply (proj1 Hiff Hok).
    apply Permutation_in with (l := stocks W); [now symmetry|exact Hx].
  - intros Hall. apply Hiff. intros x Hx. apply Hall.
    apply Permutation_in with (l' := stocks W) in Hx; assumption.
  - intros Hok.
    assert (E : printed_rows
                  (map (fun stock => ETask i stock (AHistory i)) (stocks W))
                = []).
    { clear. induction (stocks W) as [|x l IH]; [reflexivity|exact IH]. }
    rewrite !printed_rows_app, E, (Hrows Hok).
    change (printed_rows [EBanner i]) with (@nil (nat * string * Row)).
    cbn [app]. now apply Permutation_flat_map.
Qed.

Lemma for_each_returns (sch : Scheduler) (ws : list nat) (self : Watchlist) :
  (fst (fst (for_each W sch ws self)) = Ok tt <->
   forall i stock, In i ws -> In stock (stocks W) -> returns W i stock) /\
  (fst (fst (for_each W sch ws self)) = Ok tt ->
   Permutation (printed_rows (snd (for_each W sch ws self)))
               (flat_map (fun i => flat_map (rows_of W i) (stocks W)) ws)).
Proof.
  revert self. induction ws as [|i rest IH]; intros self.
  - cbn. split; [split; [intros _ ? ? []|reflexivity]|constructor].
  - cbn [for_each]. unfold bind.
    destruct (batch_returns sch i self) as [Hiff Hrows].
    destruct (batch W sch i self) as [[[[]|e] self'] t]; cbn [fst snd] in *.
    + destruct (IH self') as [Hiff' Hrows'].
      destruct (for_each W sch rest self') as [[r' self''] t'].
      cbn [fst snd] in *. split; [split|].
      * intros Hok j x [<-|Hj] Hx; [now apply Hiff|now apply Hiff'].
      * intros Hall. apply Hiff'. intros j x Hj Hx. apply Hall; [now right|exact Hx].
      * intros Hok. rewrite printed_rows_app. cbn [flat_map].
        apply Permutation_app; [now apply Hrows|now apply Hrows'].
    + split; [split|]; try discriminate.
      intros Hall. exfalso.
      assert (Hbad : @Raise unit e = Ok tt); [|discriminate].
      apply Hiff. intros x Hx. apply Hall; [now left|exact Hx].
Qed.

Lemma run_returns (sch : Scheduler) :
  fst (fst (run W sch)) = Ok tt <->
  fst (fst (for_each W sch (seq 50 10)
                     {| stocks_in_play := 0; sizzlers := [] |})) = Ok tt.
Proof.
  destruct (run_shape W sch) as (r & self & t & Ef & Er). rewrite Ef, Er.
  destruct r as [[]|e]; cbn [fst]; split; trivial; discriminate.
Qed.

Lemma sizzlers_are_the_hot_symbols (sch : Scheduler) (stock : string) :
  In stock (sizzlers (snd (fst (run W sch)))) <->
  exists i row, In (i, stock, row) (printed_rows (snd (run W sch))) /\
                sizzles row.
Proof.
  split.
  - intros H. destruct (sizzlers_origin W sch) as [Ho _].
    destruct (Ho stock H) as (_ & i & row & Hin & Hhot).
    exists i, row. split; [now apply in_printed_rows|exact Hhot].
  - intros (i & row & Hin & Hhot).
    destruct (run_keeps W sch) as (_ & _ & Hincl). apply Hincl.
    unfold hot. apply in_flat_map.
    exists (ETask i stock (APrint row)). split; [now apply in_printed_rows|].
    cbn [hot_event hot_action]. unfold sizzles in Hhot. rewrite Hhot. now left.
Qed.

(** The outcome of a completed run does not depend on the order in which
    the history requests complete: if a run completes under one scheduler
    it completes under every other, with the same rows printed (in another
    order at most), the same [stocks_in_play] and the same sizzlers. *)
Theorem completed_runs_agree (sch sch' : Scheduler) :
  fst (fst (run W sch)) = Ok tt ->
  fst (fst (run W sch')) = Ok tt /\
  Permutation (printed_rows (snd (run W sch')))
              (printed_rows (snd (run W sch))) /\
  stocks_in_play (snd (fst (run W sch')))
  = stocks_in_play (snd (fst (run W sch))) /\
  Permutation (sizzlers (snd (fst (run W sch'))))
              (sizzlers (snd (fst (run W sch)))).
Proof.
  intros Hok. apply run_returns in Hok.
  destruct (for_each_returns sch (seq 50 10)
                             {| stocks_in_play := 0; sizzlers := [] |})
    as [Hiff Hrows].
  destruct (for_each_returns sch' (seq 50 10)
                             {| stocks_in_play := 0; sizzlers := [] |})
    as [Hiff' Hrows'].
  assert (Hok' : fst (fst (for_each W sch' (seq 50 10)
                                    {| stocks_in_play := 0; sizzlers := [] |}))
                 = Ok tt).
  { apply Hiff'. now apply Hiff. }
  assert (Hperm : Permutation (printed_rows (snd (run W sch')))
                              (printed_rows (snd (run W sch)))).
  { rewrite !printed_rows_run.
    etransitivity; [now apply Hrows'|symmetry; now apply Hrows]. }
  split; [now apply run_returns|]. split; [exact Hperm|]. split.
  - rewrite !state_run, !for_each_counts_rows, <- !printed_rows_run.
    now rewrite (Permutation_length Hperm).
  - apply NoDup_Permutation.
    + destruct (run_keeps W sch') as (Hnd & _). apply Hnd. constructor.
    + destruct (run_keeps W sch) as (Hnd & _). apply Hnd. constructor.
    + intros x. rewrite !sizzlers_are_the_hot_symbols.
      split; intros (i & row & Hin & Hhot); exists i, row; split; trivial.
      * eapply Permutation_in; eassumption.
      * eapply Permutation_in; [symmetry|]; eassumption.
Qed.

End Schedules.

Import MoreScenarios.

Lemma sizzlers_come_from_hot_rows_witness :
  In "AAA" (stocks hot_world) /\
  exists i row,
    In (ETask i "AAA" (APrint row)) (snd (@run libm12 hot_world fifo)) /\
    sizzles row.
Proof.
  destruct (@sizzlers_come_from_hot_rows libm12 hot_world fifo) as [Horigin _].
  apply (Horigin "AAA"). vm_compute. now left.
Defined.

Lemma printed_rows_are_screened_witness :
  (50 <= 50 < 60)%nat /\
  In "BBB" (stocks pair_world) /\
  row_stock (pass_row "BBB") = "BBB" /\
  row_evidence (pass_row "BBB") = "No" /\
  250000 <= row_equity_vol (pass_row "BBB") /\
  exists x, row_vol (pass_row "BBB") = PyFloat x.
Proof.
  apply (@printed_rows_are_screened libm12 pair_world second_first
           50%nat "BBB" (pass_row "BBB")).
  apply nth_error_In with (n := 10%nat). vm_compute. reflexivity.
Defined.

Lemma completed_run_covers_the_universe_witness :
  In (ETask 57 "AAA" (AHistory 57)) (snd (@run libm12 one_symbol fifo)) /\
  In (ETask 57 "AAA" AReturn) (snd (@run libm12 one_symbol fifo)).
Proof.
  destruct (@completed_run_covers_the_universe libm12 one_symbol fifo)
    as [_ Hall].
  apply Hall; [vm_compute; reflexivity|lia|now left].
Defined.

Lemma completed_runs_agree_witness :
  fst (fst (@run libm12 pair_world second_first)) = Ok tt /\
  Permutation (printed_rows (snd (@run libm12 pair_world second_first)))
              (printed_rows (snd (@run libm12 pair_world fifo))) /\
  stocks_in_play (snd (fst (@run libm12 pair_world second_first)))
  = stocks_in_play (snd (fst (@run libm12 pair_world fifo))) /\
  Permutation (sizzlers (snd (fst (@run libm12 pair_world second_first))))
              (sizzlers (snd (fst (@run libm12 pair_world fifo)))).
Proof.
  apply (@completed_runs_agree libm12 pair_world fifo second_first).
  vm_compute. reflexivity.
Defined.

(** ** Prices in another unit *)

Section Scale.

Local Open Scope Q_scope.

Variable k : Q.
Hypothesis k_pos : 0 < k.

















End Scale.

(** *** Split adjustments

    Scaling by a power of two is the case in which binary floating point
    is exact as well. *)



